(** * Chatmate: the chat route handler

    A shallow embedding of the route handler of the Chatmate assistant
    (the [POST] handler, [buildResponse] and its helpers) together with
    the properties of its specification.

    The handler is dynamically typed JavaScript behind TypeScript
    annotations: whatever JSON the client sends reaches the code.  The
    embedding therefore works on parsed JSON values, threads thrown
    exceptions through a small error monad, and recovers the annotated
    types ([Role], [ChatMessage]) as Rocq types injected into values. *)

From Stdlib Require Import List NArith ZArith Bool String Ascii Lia.
Import ListNotations.

(** ** JavaScript strings and the built-ins the handler calls *)

Module JS.

Local Open Scope N_scope.

(** A JavaScript string is a sequence of UTF-16 code units. *)
Definition jsstring := list N.

(** *** String literals

    Literals are written as Rocq strings (UTF-8 bytes, as in the source
    file) and decoded once to code units. *)

Fixpoint codePoints (bs : list N) : list N :=
  match bs with
  | [] => []
  | b0 :: t0 =>
    if b0 <? 128 then b0 :: codePoints t0
    else
      match t0 with
      | [] => []
      | b1 :: t1 =>
        if b0 <? 224 then ((b0 - 192) * 64 + (b1 - 128)) :: codePoints t1
        else
          match t1 with
          | [] => []
          | b2 :: t2 =>
            if b0 <? 240
            then ((b0 - 224) * 4096 + (b1 - 128) * 64 + (b2 - 128))
                   :: codePoints t2
            else
              match t2 with
              | [] => []
              | b3 :: t3 =>
                ((b0 - 240) * 262144 + (b1 - 128) * 4096
                 + (b2 - 128) * 64 + (b3 - 128)) :: codePoints t3
              end
          end
      end
  end.

Definition codeUnits (cp : N) : list N :=
  if cp <? 65536 then [cp]
  else [55296 + (cp - 65536) / 1024; 56320 + (cp - 65536) mod 1024].

Definition js (s : string) : jsstring :=
  flat_map codeUnits (codePoints (map N_of_ascii (list_ascii_of_string s))).

Definition quote : jsstring := [34].
Definition newline : jsstring := [10].

Fixpoint eqb (a b : jsstring) : bool :=
  match a, b with
  | [], [] => true
  | x :: a', y :: b' => (x =? y) && eqb a' b'
  | _, _ => false
  end.

(** *** Character classes *)

(** [WhiteSpace] and [LineTerminator] of ECMAScript: the set stripped by
    [String.prototype.trim] and matched by [\s]. *)
Definition isWhiteSpace (c : N) : bool :=
  ((9 <=? c) && (c <=? 13)) || (c =? 32) || (c =? 160) || (c =? 5760)
  || ((8192 <=? c) && (c <=? 8202)) || (c =? 8232) || (c =? 8233)
  || (c =? 8239) || (c =? 8287) || (c =? 12288) || (c =? 65279).

(** [\w]: ASCII letters, digits and the underscore. *)
Definition isWordChar (c : N) : bool :=
  ((97 <=? c) && (c <=? 122)) || ((65 <=? c) && (c <=? 90))
  || ((48 <=? c) && (c <=? 57)) || (c =? 95).

(** *** [String.prototype.toLowerCase]

    ASCII and Latin-1 capitals are lowered in place; U+0130 and U+212A
    are the two other characters whose lower case contains an ASCII
    letter.  The remaining code units stand for themselves: Unicode
    lowers them to code units outside ASCII and outside white space,
    and the handler only ever inspects the lowered text through ASCII
    patterns. *)
Definition lowerUnit (c : N) : list N :=
  if (65 <=? c) && (c <=? 90) then [c + 32]
  else if (192 <=? c) && (c <=? 222) && negb (c =? 215) then [c + 32]
  else if c =? 304 then [105; 775]
  else if c =? 8490 then [107]
  else [c].

Definition toLowerCase (s : jsstring) : jsstring := flat_map lowerUnit s.

(** *** [trim], [includes], [join] *)

Fixpoint trimStart (s : jsstring) : jsstring :=
  match s with
  | [] => []
  | c :: t => if isWhiteSpace c then trimStart t else s
  end.

Definition trimEnd (s : jsstring) : jsstring := rev (trimStart (rev s)).

Definition trim (s : jsstring) : jsstring := trimEnd (trimStart s).

Fixpoint startsWith (w s : jsstring) : bool :=
  match w, s with
  | [], _ => true
  | x :: w', y :: s' => (x =? y) && startsWith w' s'
  | _ :: _, [] => false
  end.

Fixpoint includes (s w : jsstring) : bool :=
  startsWith w s || match s with [] => false | _ :: t => includes t w end.

Fixpoint join (sep : jsstring) (parts : list jsstring) : jsstring :=
  match parts with
  | [] => []
  | [p] => p
  | p :: rest => p ++ sep ++ join sep rest
  end.

(** Decimal rendering of a natural number, as a template literal
    renders [index + 1]. *)
Fixpoint digitsOf (fuel : nat) (n : N) (acc : jsstring) : jsstring :=
  match fuel with
  | O => acc
  | S f =>
    let acc' := (48 + n mod 10) :: acc in
    if n <? 10 then acc' else digitsOf f (n / 10) acc'
  end.

Definition numberToString (n : nat) : jsstring :=
  digitsOf (S n) (N.of_nat n) [].

(** *** Regular expressions

    The fragment of the pattern language the handler uses, with the
    backtracking semantics of ECMAScript: alternatives are tried left
    to right, quantifiers are greedy, [\b] looks at the code unit on
    either side of the current position. *)

Inductive regex : Type :=
| Eps
| Chr (c : N)
| Cls (p : N -> bool)
| WordB
| Seq (r1 r2 : regex)
| Alt (r1 r2 : regex)
| Opt (r : regex)
| Plus (p : N -> bool).

(** Case folding of the [i] flag (without [u]): a code unit outside
    ASCII never folds into ASCII, so only ASCII letters are folded. *)
Definition canonicalize (c : N) : N :=
  if (97 <=? c) && (c <=? 122) then c - 32 else c.

Definition sameChar (ignoreCase : bool) (pat c : N) : bool :=
  if ignoreCase then canonicalize pat =? canonicalize c else pat =? c.

Definition wordBefore (prev : option N) : bool :=
  match prev with Some c => isWordChar c | None => false end.

Definition wordAfter (s : jsstring) : bool :=
  match s with c :: _ => isWordChar c | [] => false end.

(** A continuation receives the code unit just consumed and the rest of
    the input, and answers with the input left after the whole match. *)
Definition cont := option N -> jsstring -> option jsstring.

Fixpoint plusRun (p : N -> bool) (prev : option N) (s : jsstring)
  (k : cont) : option jsstring :=
  match s with
  | [] => None
  | c :: t =>
    if p c then
      match plusRun p (Some c) t k with
      | Some rest => Some rest
      | None => k (Some c) t
      end
    else None
  end.

Fixpoint matchRe (ignoreCase : bool) (r : regex) (prev : option N)
  (s : jsstring) (k : cont) : option jsstring :=
  match r with
  | Eps => k prev s
  | Chr c =>
    match s with
    | x :: t => if sameChar ignoreCase c x then k (Some x) t else None
    | [] => None
    end
  | Cls p =>
    match s with
    | x :: t => if p x then k (Some x) t else None
    | [] => None
    end
  | WordB => if xorb (wordBefore prev) (wordAfter s) then k prev s else None
  | Seq r1 r2 =>
    matchRe ignoreCase r1 prev s (fun p' s' => matchRe ignoreCase r2 p' s' k)
  | Alt r1 r2 =>
    match matchRe ignoreCase r1 prev s k with
    | Some rest => Some rest
    | None => matchRe ignoreCase r2 prev s k
    end
  | Opt r1 =>
    match matchRe ignoreCase r1 prev s k with
    | Some rest => Some rest
    | None => k prev s
    end
  | Plus p => plusRun p prev s k
  end.

Definition accept : cont := fun _ rest => Some rest.

(** The match starting exactly at the current position, if any: what is
    left of the input after it. *)
Definition matchHere (ignoreCase : bool) (r : regex) (prev : option N)
  (s : jsstring) : option jsstring :=
  matchRe ignoreCase r prev s accept.

(** [RegExp.prototype.test] of a pattern without [g]: is there a match
    at some start position? *)
Fixpoint search (ignoreCase : bool) (r : regex) (prev : option N)
  (s : jsstring) : bool :=
  match matchHere ignoreCase r prev s with
  | Some _ => true
  | None =>
    match s with
    | [] => false
    | c :: t => search ignoreCase r (Some c) t
    end
  end.

Definition test (r : regex) (s : jsstring) : bool := search false r None s.

(** [String.prototype.replace] with a [g] pattern and a constant
    replacement: the leftmost match from the current position is
    replaced and the scan resumes after it.  [skip] counts the code
    units of the current match that are still to be passed over. *)
Fixpoint replaceScan (ignoreCase : bool) (r : regex) (by_ : jsstring)
  (skip : nat) (prev : option N) (s : jsstring) {struct s} : jsstring :=
  match skip with
  | S n =>
    match s with
    | [] => []
    | c :: t => replaceScan ignoreCase r by_ n (Some c) t
    end
  | O =>
    match matchHere ignoreCase r prev s with
    | Some rest =>
      match s with
      | [] => by_
      | c :: t =>
        match (List.length s - List.length rest)%nat with
        | O => by_ ++ c :: replaceScan ignoreCase r by_ O (Some c) t
        | S n => by_ ++ replaceScan ignoreCase r by_ n (Some c) t
        end
      end
    | None =>
      match s with
      | [] => []
      | c :: t => c :: replaceScan ignoreCase r by_ O (Some c) t
      end
    end
  end.

Definition replaceAll (ignoreCase : bool) (r : regex) (by_ s : jsstring)
  : jsstring :=
  replaceScan ignoreCase r by_ O None s.

(** Pattern syntax helpers: a literal word, an alternation. *)
Definition wordOf (w : jsstring) : regex :=
  fold_right (fun c r => Seq (Chr c) r) Eps w.

Definition word (s : string) : regex := wordOf (js s).

Fixpoint oneOf (rs : list regex) : regex :=
  match rs with
  | [] => Cls (fun _ => false)
  | [r] => r
  | r :: rest => Alt r (oneOf rest)
  end.

End JS.


(** ** Values, exceptions and the annotated types *)

Module Dyn.

Import JS.

(** A JavaScript value as [request.json()] can produce it, and
    [undefined], which reading an absent property yields.  Of a number
    the handler only ever asks whether it is zero, so integers stand
    for the numbers; an object is the list of its own properties. *)
#[warnings="-register-all"]
Inductive value : Type :=
| VUndefined
| VNull
| VBool (b : bool)
| VNum (n : Z)
| VStr (s : jsstring)
| VArr (items : list value)
| VObj (props : list (jsstring * value)).

(** What is thrown: [TypeError] by a read or a call on the wrong kind
    of value, [SyntaxError] by [request.json()] on a body that is not
    JSON. *)
Inductive error : Type := TypeError | SyntaxError.

Inductive result (A : Type) : Type :=
| Ok (a : A)
| Throw (e : error).

Arguments Ok {A} a.
Arguments Throw {A} e.

Definition bind {A B : Type} (m : result A) (f : A -> result B) : result B :=
  match m with
  | Ok a => f a
  | Throw e => Throw e
  end.

Declare Scope js_scope.
Delimit Scope js_scope with js.
Notation "x <- m ;; k" := (bind m (fun x => k))
  (at level 61, m at next level, right associativity) : js_scope.
Local Open Scope js_scope.

Definition truthy (v : value) : bool :=
  match v with
  | VUndefined | VNull => false
  | VBool b => b
  | VNum n => negb (Z.eqb n 0)
  | VStr s => match s with [] => false | _ => true end
  | VArr _ | VObj _ => true
  end.

Definition isArray (v : value) : bool :=
  match v with VArr _ => true | _ => false end.

(** [v === "..."] against a string literal. *)
Definition strictEqStr (v : value) (lit : jsstring) : bool :=
  match v with VStr s => JS.eqb s lit | _ => false end.

Fixpoint ownProp (key : jsstring) (props : list (jsstring * value)) : value :=
  match props with
  | [] => VUndefined
  | (k, v) :: rest => if JS.eqb k key then v else ownProp key rest
  end.

(** [v.key] for the three keys the handler reads ([messages], [role],
    [content]): none of them is defined by a built-in prototype, so
    the read is [undefined] on anything but an object that has the
    property, and throws on [null] and [undefined]. *)
Definition getProp (v : value) (key : jsstring) : result value :=
  match v with
  | VUndefined | VNull => Throw TypeError
  | VObj props => Ok (ownProp key props)
  | _ => Ok VUndefined
  end.

(** Calling a string method on [v]: anything but a string has no such
    method, and the call throws. *)
Definition asString (v : value) : result jsstring :=
  match v with VStr s => Ok s | _ => Throw TypeError end.

(** [Array.prototype.find], [filter] and [map] with a callback that may
    throw. *)
Fixpoint find (p : value -> result bool) (xs : list value) : result value :=
  match xs with
  | [] => Ok VUndefined
  | x :: rest =>
    b <- p x ;;
    if b then Ok x else find p rest
  end.

Fixpoint filter (p : value -> result bool) (xs : list value)
  : result (list value) :=
  match xs with
  | [] => Ok []
  | x :: rest =>
    b <- p x ;;
    kept <- filter p rest ;;
    Ok (if b then x :: kept else kept)
  end.

Fixpoint mapi {B : Type} (f : value -> nat -> result B) (index : nat)
  (xs : list value) : result (list B) :=
  match xs with
  | [] => Ok []
  | x :: rest =>
    y <- f x index ;;
    ys <- mapi f (S index) rest ;;
    Ok (y :: ys)
  end.

(** [xs.slice(-n)]. *)
Definition sliceLast {A : Type} (n : nat) (xs : list A) : list A :=
  skipn (List.length xs - n) xs.

(** The annotated types of the route, and the objects that carry them
    on the wire: the client sends [{role, content}] for each turn. *)
Inductive Role : Type := user | assistant.

Record ChatMessage : Type := { role : Role; content : jsstring }.

Definition roleName (r : Role) : jsstring :=
  match r with
  | user => js "user"
  | assistant => js "assistant"
  end.

Definition ofMessage (m : ChatMessage) : value :=
  VObj [(js "role", VStr (roleName (role m)));
        (js "content", VStr (content m))].

Definition isUser (m : ChatMessage) : bool :=
  match role m with user => true | assistant => false end.

Definition isAssistant (m : ChatMessage) : bool :=
  match role m with assistant => true | user => false end.

End Dyn.

(** ** The route handler *)

Module Route.

Import JS Dyn.
Local Open Scope js_scope.

Record ResponsePayload : Type :=
  { reply : jsstring; suggestions : list jsstring }.

Definition lines (ls : list jsstring) : jsstring := join newline ls.

Definition fallbackSuggestions : list jsstring :=
  [ js "What else can you help me with?";
    js "Summarize our conversation so far.";
    js "Give me a fresh idea to explore.";
    js "Help me plan the next steps." ].

(** [value.trim().replace(/\s+/g, " ")] *)
Definition sanitize (value : jsstring) : jsstring :=
  replaceAll false (Plus isWhiteSpace) (js " ") (trim value).

(** [/plan|idea|ideas?|brainstorm|help/gi] *)
Definition ideasStrip : regex :=
  oneOf [ word "plan"; word "idea"; Seq (word "idea") (Opt (Chr 115));
          word "brainstorm"; word "help" ].

(** [/plan|schedule|timeline|roadmap/gi] *)
Definition planStrip : regex :=
  oneOf [ word "plan"; word "schedule"; word "timeline"; word "roadmap" ].

Definition ideasFocus (prompt : jsstring) : jsstring :=
  trim (replaceAll true ideasStrip [] prompt).

Definition buildIdeasResponse (prompt : jsstring) : jsstring :=
  let focus := ideasFocus prompt in
  let focusLine :=
    match focus with
    | _ :: _ =>
      js "Here are a few directions tailored to " ++ quote ++ focus
         ++ quote ++ js ":"
    | [] => js "Here are a few directions to explore:"
    end in
  lines
    [ focusLine;
      [];
      js "1. **Quick Win** – Start with a small experiment you can finish in under an hour to validate the concept without a big investment.";
      js "2. **Deep Dive** – Outline the larger objective, then break it into three milestones with owners, timelines, and success criteria.";
      js "3. **Community Pulse** – Ask three people from your audience what they would expect. Their language will sharpen your copy and positioning.";
      [];
      js "Want to unpack one of these further?" ].

Definition planFocus (prompt : jsstring) : jsstring :=
  sanitize (replaceAll true planStrip [] prompt).

Definition buildPlanResponse (prompt : jsstring) : jsstring :=
  let focus := planFocus prompt in
  let subject :=
    match focus with
    | _ :: _ => js " to shape " ++ focus
    | [] => []
    end in
  lines
    [ js "Here’s a simple structure" ++ subject ++ js " you can follow:";
      [];
      js "- **Clarify the outcome** – write one sentence about what “done” looks like.";
      js "- **Identify constraints** – note time, budget, and any tools you already have.";
      js "- **Draft the timeline** – split the work into morning/afternoon or weekly checkpoints.";
      js "- **Add accountability** – schedule quick check-ins or reminders so momentum doesn’t fade.";
      [];
      js "If you’d like, I can turn this into a calendar-style checklist for you." ].

Definition hasRole (name : string) (entry : value) : result bool :=
  r <- getProp entry (js "role") ;;
  Ok (strictEqStr r (js name)).

Definition exploringMessage : jsstring :=
  js "You’ve mostly been exploring the assistant’s features so far.".

Definition trackingMessage (important : list jsstring) : jsstring :=
  js "Here’s what I’m tracking:" ++ newline
    ++ join newline important ++ newline ++ newline
    ++ js "Ready whenever you are for a deeper dive.".

Definition summaryLine (entry : value) (index : nat) : result jsstring :=
  c <- getProp entry (js "content") ;;
  text <- asString c ;;
  Ok (numberToString (index + 1) ++ js ". " ++ sanitize text).

Definition summarizeConversation (history : list value) : result jsstring :=
  users <- filter (hasRole "user") history ;;
  important <- mapi summaryLine 0 (sliceLast 3 users) ;;
  match important with
  | [] => Ok exploringMessage
  | _ :: _ => Ok (trackingMessage important)
  end.

(** The patterns of the dispatch chain, in source order. *)

Definition seq (rs : list regex) : regex := fold_right Seq Eps rs.

(** [/\b(...)\b/] *)
Definition bounded (alternatives : list regex) : regex :=
  seq [WordB; oneOf alternatives; WordB].

(** [/\b(hello|hey|hi|good\s?(morning|afternoon|evening))\b/] *)
Definition greetingRe : regex :=
  bounded
    [ word "hello"; word "hey"; word "hi";
      seq [ word "good"; Opt (Cls isWhiteSpace);
            oneOf [word "morning"; word "afternoon"; word "evening"] ] ].

(** [/\b(thank(s| you)|appreciate|great job|awesome)\b/] *)
Definition gratitudeRe : regex :=
  bounded
    [ seq [word "thank"; oneOf [word "s"; word " you"]];
      word "appreciate"; word "great job"; word "awesome" ].

(** [/\bthanks?\b/] *)
Definition thanksRe : regex :=
  seq [WordB; word "thank"; Opt (Chr 115); WordB].

(** [/\b(bye|goodbye|see you|later)\b/] *)
Definition farewellRe : regex :=
  bounded [word "bye"; word "goodbye"; word "see you"; word "later"].

(** [/\b(who are you|what are you|introduce yourself)\b/] *)
Definition identityRe : regex :=
  bounded [word "who are you"; word "what are you"; word "introduce yourself"].

(** [/\b(plan|schedule|timeline|roadmap)\b/] *)
Definition planRe : regex :=
  bounded [word "plan"; word "schedule"; word "timeline"; word "roadmap"].

(** [/\bidea|ideas|brainstorm|concept\b/]: the alternation binds
    weaker than [\b]. *)
Definition ideaRe : regex :=
  oneOf [ seq [WordB; word "idea"]; word "ideas"; word "brainstorm";
          seq [word "concept"; WordB] ].

(** [/\b(joke|funny|laugh)\b/] *)
Definition jokeRe : regex := bounded [word "joke"; word "funny"; word "laugh"].

(** [/\b(weather|temperature|outside)\b/] *)
Definition weatherRe : regex :=
  bounded [word "weather"; word "temperature"; word "outside"].

(** [/\btime\b/] *)
Definition timeRe : regex := seq [WordB; word "time"; WordB].

(** [/\b(explain|teach|learn|understand)\b/] *)
Definition explainRe : regex :=
  bounded [word "explain"; word "teach"; word "learn"; word "understand"].

(** [/\bsummary|summarize|recap\b/] *)
Definition summaryRe : regex :=
  oneOf [ seq [WordB; word "summary"]; word "summarize";
          seq [word "recap"; WordB] ].

(** The fixed payloads. *)

Definition greetingPayload : ResponsePayload :=
  {| reply := js "Hey! 👋 I’m right here. Let me know what you’re working on or curious about and we’ll dive in together.";
     suggestions :=
       [ js "Help me map out my next project.";
         js "Teach me something new in five minutes.";
         js "Turn this idea into action steps." ] |}.

Definition thanksPayload : ResponsePayload :=
  {| reply := js "So glad that helped! Do you want to keep going, try a different angle, or wrap up with next steps?";
     suggestions :=
       [ js "Let’s build on that idea.";
         js "What should I tackle next?";
         js "Summarize what we achieved." ] |}.

Definition farewellPayload : ResponsePayload :=
  {| reply := js "Catch you later! I’ll be ready the moment you’re back and want to resume.";
     suggestions :=
       [ js "Draft a recap email for me.";
         js "Share a quick productivity tip.";
         js "Set up a follow-up checklist." ] |}.

Definition identityPayload : ResponsePayload :=
  {| reply := js "I’m Chatmate—your on-demand collaborator for brainstorming, planning, and explaining ideas clearly. I combine structured thinking with a friendly tone so you can move faster.";
     suggestions :=
       [ js "Show me how you brainstorm.";
         js "Help me plan something step-by-step.";
         js "Summarize an article for me." ] |}.

Definition planPayload (prompt : jsstring) : ResponsePayload :=
  {| reply := buildPlanResponse prompt;
     suggestions :=
       [ js "Convert that into a 7-day plan.";
         js "List potential blockers I should watch out for.";
         js "Suggest tools to stay on schedule." ] |}.

Definition ideasPayload (prompt : jsstring) : ResponsePayload :=
  {| reply := buildIdeasResponse prompt;
     suggestions :=
       [ js "Expand on idea number two.";
         js "Find an inspiring quote I can use.";
         js "Outline the risks and mitigations." ] |}.

Definition jokePayload : ResponsePayload :=
  {| reply := js "Sure! Why did the developer bring a ladder to work? Because they heard the project was in the cloud. 😄 Want another one or should we get back to business?";
     suggestions :=
       [ js "Give me a motivational quote.";
         js "Let’s get serious again.";
         js "Share a brainstorming icebreaker." ] |}.

Definition weatherPayload : ResponsePayload :=
  {| reply := js "I can’t check the live weather, but I can help you pack smarter: grab layers, keep an eye on the hourly forecast, and schedule a backup indoor activity just in case.";
     suggestions :=
       [ js "Plan a day trip itinerary.";
         js "Help me pack efficiently.";
         js "Create a rainy-day backup plan." ] |}.

(** [clock] is what [now.toLocaleTimeString] renders for the moment of
    the call. *)
Definition timePayload (clock : jsstring) : ResponsePayload :=
  {| reply := js "It’s currently " ++ clock
        ++ js ". Want to carve out a plan for the next hour or set some checkpoints?";
     suggestions :=
       [ js "Help me focus for the next 25 minutes.";
         js "Break the next task into checkpoints.";
         js "Plan my evening wind-down routine." ] |}.

Definition explainPayload : ResponsePayload :=
  {| reply :=
       lines
         [ js "Let’s unpack that the simple way:";
           [];
           js "1. Start with the big picture—what problem does it solve?";
           js "2. Identify the core pieces involved.";
           js "3. Walk through a real-world example.";
           js "4. Finish with an action you can try on your own.";
           [];
           js "Tell me what you’re learning and I’ll tailor each step." ];
     suggestions :=
       [ js "Give me an analogy to understand it.";
         js "Quiz me with a quick check.";
         js "Show me the pros and cons." ] |}.

Definition summaryPayload (summary : jsstring) : ResponsePayload :=
  {| reply := summary;
     suggestions :=
       [ js "Highlight key decisions.";
         js "Outline next actions.";
         js "Draft a message I can send to my team." ] |}.

Definition expandPayload : ResponsePayload :=
  {| reply := js "Let’s zoom in: what part would you like to develop—resources, timeline, or potential challenges? Give me a clue and I’ll sketch it out.";
     suggestions :=
       [ js "List potential challenges we might hit.";
         js "Suggest resources that could help.";
         js "Turn this into a longer-form outline." ] |}.

Definition fallbackPayload (prompt : jsstring) : ResponsePayload :=
  {| reply :=
       lines
         [ js "Here’s what I’m picking up: " ++ sanitize prompt
             ++ js ". I can help you clarify the goal, outline the steps, or find inspiration.";
           [];
           js "Let me know which direction sounds best and we’ll move forward." ];
     suggestions := fallbackSuggestions |}.

(** [buildResponse].  The first statement, [prompt.toLowerCase()],
    throws unless [prompt] is a string. *)
Definition buildResponse (clock : jsstring) (prompt : value)
  (history : list value) : result ResponsePayload :=
  text <- asString prompt ;;
  let normalized := toLowerCase text in
  if test greetingRe normalized then Ok greetingPayload
  else if test gratitudeRe normalized || test thanksRe normalized
  then Ok thanksPayload
  else if test farewellRe normalized then Ok farewellPayload
  else if test identityRe normalized then Ok identityPayload
  else if test planRe normalized then Ok (planPayload text)
  else if test ideaRe normalized then Ok (ideasPayload text)
  else if test jokeRe normalized then Ok jokePayload
  else if test weatherRe normalized then Ok weatherPayload
  else if test timeRe normalized then Ok (timePayload clock)
  else if test explainRe normalized then Ok explainPayload
  else if test summaryRe normalized then
    summary <- summarizeConversation history ;;
    Ok (summaryPayload summary)
  else
    lastAssistantResponse <- find (hasRole "assistant") (rev history) ;;
    if truthy lastAssistantResponse && includes normalized (js "expand")
    then Ok expandPayload
    else Ok (fallbackPayload text).

(** *** The endpoint *)

Record Response : Type := { status : nat; body : ResponsePayload }.

Definition malformedPayload : ResponsePayload :=
  {| reply := js "I didn’t catch that request. Can you share it again in plain text?";
     suggestions := fallbackSuggestions |}.

Definition readyPayload : ResponsePayload :=
  {| reply := js "I’m ready when you are—drop a message and we’ll get rolling.";
     suggestions := fallbackSuggestions |}.

Definition failurePayload : ResponsePayload :=
  {| reply := js "Something went sideways on my end. Give me a second and feel free to try again.";
     suggestions := fallbackSuggestions |}.

Section Endpoint.

(** The responder the endpoint delegates to. *)
Variable respond : value -> list value -> result ResponsePayload.

(** [!body || !Array.isArray(body.messages)] *)
Definition malformed (payload : value) : result bool :=
  if negb (truthy payload) then Ok true
  else
    messages <- getProp payload (js "messages") ;;
    Ok (negb (isArray messages)).

(** The [try] block of the handler; [request] is the outcome of
    [request.json()]. *)
Definition handle (request : result value) : result Response :=
  payload <- request ;;
  bad <- malformed payload ;;
  if bad then Ok {| status := 400; body := malformedPayload |}
  else
    messages <- getProp payload (js "messages") ;;
    match messages with
    | VArr entries =>
      lastUserMessage <- find (hasRole "user") (rev entries) ;;
      if negb (truthy lastUserMessage)
      then Ok {| status := 200; body := readyPayload |}
      else
        text <- getProp lastUserMessage (js "content") ;;
        answer <- respond text entries ;;
        Ok {| status := 200; body := answer |}
    | _ => Throw TypeError
    end.

(** The handler with its [catch]: the response, and what was written
    to the error console. *)
Definition serve (request : result value) : Response * list jsstring :=
  match handle request with
  | Ok response => (response, [])
  | Throw _ =>
    ({| status := 500; body := failurePayload |}, [js "Chat route error"])
  end.

End Endpoint.

Definition POST (clock : jsstring) (request : result value)
  : Response * list jsstring :=
  serve (buildResponse clock) request.

End Route.


(** ** The chat page

    The state of the page component and its handlers.  A handler runs
    on the state of the latest render, and the updates it queues in
    one synchronous stretch are applied together; [sendMessage] is cut
    at its [await] into the part that sends and the part that runs
    when the request settles.  Identifiers and time stamps come from
    the environment. *)

Module Page.

Import JS Dyn.

Record Message : Type :=
  { id : jsstring; role : Role; content : jsstring; createdAt : Z }.

Definition fallbackPrompts : list jsstring :=
  [ js "Summarize what we just discussed.";
    js "Give me three creative marketing ideas.";
    js "Help me plan a productive morning routine.";
    js "Explain a complex topic in simple terms." ].

(** [createdAt] is [Date.now()] at the time the module is loaded. *)
Definition assistantGreeting (loadedAt : Z) : Message :=
  {| id := js "assistant-greeting";
     role := assistant;
     content := js "Hey there! I’m Chatmate—your friendly brainstorming partner. Ask me anything, explore ideas, or tap on a prompt to get started.";
     createdAt := loadedAt |}.

Record State : Type :=
  { messages : list Message;
    input : jsstring;
    isLoading : bool;
    suggestions : list jsstring }.

Definition initialState (loadedAt : Z) : State :=
  {| messages := [assistantGreeting loadedAt];
     input := [];
     isLoading := false;
     suggestions := fallbackPrompts |}.

Definition setInput (st : State) (text : jsstring) : State :=
  {| messages := messages st;
     input := text;
     isLoading := isLoading st;
     suggestions := suggestions st |}.

(** [input.trim().length === 0 || isLoading] *)
Definition isSendDisabled (st : State) : bool :=
  Nat.eqb (List.length (trim (input st))) 0 || isLoading st.

(** [({ role, content }) => ({ role, content })] *)
Definition wire (m : Message) : value :=
  ofMessage {| Dyn.role := role m; Dyn.content := content m |}.

(** The object handed to [JSON.stringify]; the route reads it back with
    [request.json()]. *)
Definition requestBody (history : list Message) : value :=
  VObj [(js "messages", VArr (map wire history))].

(** [sendMessage] up to its [await]: nothing happens on blank content
    or while a request is under way; otherwise the new state and the
    body of the request that goes out. *)
Definition sendMessage (st : State) (text uuid : jsstring) (now : Z)
  : option (State * value) :=
  let trimmedContent := trim text in
  if match trimmedContent with [] => true | _ :: _ => false end
     || isLoading st
  then None
  else
    let userMessage :=
      {| id := uuid; role := user; content := trimmedContent;
         createdAt := now |} in
    let history := messages st ++ [userMessage] in
    Some ({| messages := history;
             input := [];
             isLoading := true;
             suggestions := suggestions st |},
          requestBody history).

(** What the awaited [fetch] and [response.json()] come to, read at the
    annotated type [{ reply: string; suggestions?: string[] }]. *)
Record ReplyData : Type :=
  { reply : jsstring; offered : option (list jsstring) }.

Inductive Fetched : Type :=
| Rejected
| Responded (ok : bool) (data : result ReplyData).

Definition hiccupMessage (uuid : jsstring) (now : Z) : Message :=
  {| id := uuid;
     role := assistant;
     content := js "I ran into a hiccup while thinking that through. Give it another try in a moment.";
     createdAt := now |}.

(** [sendMessage] from its [await] on: the [try] block runs to its end
    on a response that is [ok] and parses; anything else lands in
    [catch].  [finally] lowers the loading flag. *)
Definition settle (st : State) (fetched : Fetched) (uuid : jsstring)
  (now : Z) : State :=
  match fetched with
  | Responded true (Ok data) =>
    let assistantMessage :=
      {| id := uuid; role := assistant; content := reply data;
         createdAt := now |} in
    {| messages := messages st ++ [assistantMessage];
       input := input st;
       isLoading := false;
       suggestions :=
         match offered data with
         | Some (first :: more) => first :: more
         | _ => fallbackPrompts
         end |}
  | _ =>
    {| messages := messages st ++ [hiccupMessage uuid now];
       input := input st;
       isLoading := false;
       suggestions := suggestions st |}
  end.

(** Does [catch] write to the error console? *)
Definition settleLogs (fetched : Fetched) : bool :=
  match fetched with
  | Responded true (Ok _) => false
  | _ => true
  end.

(** What [fetch] resolves to when the route's response arrives:
    [response.ok] holds for a status from 200 to 299, and the body
    parses to the payload. *)
Definition deliver (response : Route.Response) : Fetched :=
  Responded
    (Nat.leb 200 (Route.status response) && Nat.leb (Route.status response) 299)
    (Ok {| reply := Route.reply (Route.body response);
           offered := Some (Route.suggestions (Route.body response)) |}).

(** The page and the requests under way. *)
Record World : Type := { ui : State; inFlight : list value }.

Inductive Event : Type :=
| Typed (text : jsstring)
| Picked (prompt : jsstring)
| Submitted (uuid : jsstring) (now : Z)
| Settled (fetched : Fetched) (uuid : jsstring) (now : Z).

(** One event: typing, a click on a suggestion pill that is on
    display, a submit (the form's [onSubmit], or Enter without Shift),
    the settling of the oldest request under way.  [None] where the
    event cannot occur. *)
Definition step (w : World) (e : Event) : option World :=
  match e with
  | Typed text => Some {| ui := setInput (ui w) text; inFlight := inFlight w |}
  | Picked prompt =>
    if existsb (JS.eqb prompt) (suggestions (ui w))
    then Some {| ui := setInput (ui w) prompt; inFlight := inFlight w |}
    else None
  | Submitted uuid now =>
    match sendMessage (ui w) (input (ui w)) uuid now with
    | Some (st, body) => Some {| ui := st; inFlight := inFlight w ++ [body] |}
    | None => Some w
    end
  | Settled fetched uuid now =>
    match inFlight w with
    | [] => None
    | _ :: rest =>
      Some {| ui := settle (ui w) fetched uuid now; inFlight := rest |}
    end
  end.

Fixpoint run (w : World) (events : list Event) : option World :=
  match events with
  | [] => Some w
  | e :: rest =>
    match step w e with
    | Some w' => run w' rest
    | None => None
    end
  end.

Definition start (loadedAt : Z) : World :=
  {| ui := initialState loadedAt; inFlight := [] |}.

End Page.

(** ** Specification-level notions

    What the properties below are stated with: plain recursive
    descriptions of white-space normal forms, of keyword stripping and
    of the typed reading of a history. *)

Module Spec.

Import JS Dyn Route.
Local Open Scope N_scope.

(** *** White space *)

Definition startsWithSpace (s : jsstring) : bool :=
  match s with
  | c :: _ => isWhiteSpace c
  | [] => false
  end.

Fixpoint endsWithSpace (s : jsstring) : bool :=
  match s with
  | [] => false
  | c :: t => match t with [] => isWhiteSpace c | _ :: _ => endsWithSpace t end
  end.

(** Every white-space code unit is a single U+0020 standing directly in
    front of a code unit that is not white space. *)
Fixpoint singleSpaced (s : jsstring) : bool :=
  match s with
  | [] => true
  | c :: t =>
    (if isWhiteSpace c
     then (c =? 32) && match t with [] => false | d :: _ => negb (isWhiteSpace d) end
     else true)
    && singleSpaced t
  end.

(** The normal form of [sanitize]: trimmed at both ends, runs collapsed. *)
Definition tidy (s : jsstring) : bool :=
  negb (startsWithSpace s) && negb (endsWithSpace s) && singleSpaced s.

(** The code units that are not white space, in order. *)
Definition ink (s : jsstring) : jsstring :=
  List.filter (fun c => negb (isWhiteSpace c)) s.

(** Collapsing of white-space runs in one pass; [inRun] tells that the
    previous code unit was white space. *)
Fixpoint squeeze (inRun : bool) (s : jsstring) : jsstring :=
  match s with
  | [] => []
  | c :: t =>
    if isWhiteSpace c
    then if inRun then squeeze true t else 32 :: squeeze true t
    else c :: squeeze false t
  end.

Fixpoint leadingRun (s : jsstring) : nat :=
  match s with
  | [] => O
  | c :: t => if isWhiteSpace c then S (leadingRun t) else O
  end.

(** *** Keyword stripping *)

(** What is left of [s] after an occurrence of [w], in any letter case,
    at its head. *)
Fixpoint stripPrefix (w s : jsstring) : option jsstring :=
  match w, s with
  | [], _ => Some s
  | x :: w', y :: s' =>
    if canonicalize x =? canonicalize y then stripPrefix w' s' else None
  | _ :: _, [] => None
  end.

Fixpoint firstHit (keywords : list jsstring) (s : jsstring)
  : option jsstring :=
  match keywords with
  | [] => None
  | w :: rest =>
    match stripPrefix w s with
    | Some remaining => Some remaining
    | None => firstHit rest s
    end
  end.

(** [Stripped keywords s out]: [out] is [s] read from left to right
    once, with every keyword occurrence met on the way left out and the
    reading resumed behind it. *)
Inductive Stripped (keywords : list jsstring) : jsstring -> jsstring -> Prop :=
| stripped_end : Stripped keywords [] []
| stripped_hit (w s rest out : jsstring) :
    In w keywords -> w <> [] -> stripPrefix w s = Some rest ->
    Stripped keywords rest out -> Stripped keywords s out
| stripped_keep (c : N) (t out : jsstring) :
    (forall w, In w keywords -> stripPrefix w (c :: t) = None) ->
    Stripped keywords t out -> Stripped keywords (c :: t) (c :: out).

Definition planWords : list jsstring :=
  [js "plan"; js "schedule"; js "timeline"; js "roadmap"].

(** [ideas?] stands behind [idea] in the pattern and never gets to
    match. *)
Definition ideasWords : list jsstring :=
  [js "plan"; js "idea"; js "brainstorm"; js "help"].

Definition initial (w : jsstring) : option N :=
  match w with
  | c :: _ => Some (canonicalize c)
  | [] => None
  end.

(** *** Typed histories *)

(** The last [n] elements, in their order. *)
Definition lastN {A : Type} (n : nat) (xs : list A) : list A :=
  rev (firstn n (rev xs)).

(** The turns the summary lists: the last three user turns. *)
Definition recentUsers (history : list ChatMessage) : list ChatMessage :=
  lastN 3 (List.filter isUser history).

(** Line [index + 1] of the summary, and the lines for a run of turns
    numbered from [index + 1] on. *)
Definition numberedLine (index : nat) (m : ChatMessage) : jsstring :=
  numberToString (index + 1) ++ js ". " ++ sanitize (content m).

Fixpoint numbered (index : nat) (turns : list ChatMessage) : list jsstring :=
  match turns with
  | [] => []
  | m :: rest => numberedLine index m :: numbered (S index) rest
  end.

(** The value an optional typed message stands for. *)
Definition ofFound (found : option ChatMessage) : value :=
  match found with
  | Some m => ofMessage m
  | None => VUndefined
  end.

(** *** The dispatch chain *)

(** Some keyword pattern of the chain, greeting through summary,
    matches the lowered text. *)
Definition matchesKeyword (normalized : jsstring) : bool :=
  test greetingRe normalized
  || (test gratitudeRe normalized || test thanksRe normalized)
  || test farewellRe normalized
  || test identityRe normalized
  || test planRe normalized
  || test ideaRe normalized
  || test jokeRe normalized
  || test weatherRe normalized
  || test timeRe normalized
  || test explainRe normalized
  || test summaryRe normalized.

(** A pattern that cannot match without reading a code unit that is
    not white space. *)
Fixpoint needsInk (r : regex) : bool :=
  match r with
  | Eps | Cls _ | WordB | Opt _ | Plus _ => false
  | Chr c => negb (isWhiteSpace c)
  | Seq r1 r2 => needsInk r1 || needsInk r2
  | Alt r1 r2 => needsInk r1 && needsInk r2
  end.

(** *** Untyped entries *)

Definition nullish (v : value) : bool :=
  match v with
  | VUndefined | VNull => true
  | _ => false
  end.

(** The entry is an object whose [role] property is the string [name]. *)
Definition roleIs (name : string) (v : value) : bool :=
  match v with
  | VObj props => strictEqStr (ownProp (js "role") props) (js name)
  | _ => false
  end.

(** The payload is an object with a [messages] property holding an
    array. *)
Definition messagesOf (payload : value) : option (list value) :=
  match payload with
  | VObj props =>
    match ownProp (js "messages") props with
    | VArr entries => Some entries
    | _ => None
    end
  | _ => None
  end.

(** *** Words *)

Definition consHead (c : N) (ws : list jsstring) : list jsstring :=
  match ws with
  | w :: rest => (c :: w) :: rest
  | [] => [[c]]
  end.

(** The maximal runs of code units that are not white space. *)
Fixpoint words (s : jsstring) : list jsstring :=
  match s with
  | [] => []
  | c :: t =>
    if isWhiteSpace c then words t
    else if startsWithSpace t then [c] :: words t
    else consHead c (words t)
  end.

(** [a] is [b] with some code units left out. *)
Inductive Subseq : jsstring -> jsstring -> Prop :=
| subseq_nil : Subseq [] []
| subseq_skip (c : N) (a b : jsstring) : Subseq a b -> Subseq a (c :: b)
| subseq_take (c : N) (a b : jsstring) : Subseq a b -> Subseq (c :: a) (c :: b).

(** *** What a branch reads *)

(** The time branch is reached: its pattern matches and none before it
    does. *)
Definition reachesTime (normalized : jsstring) : bool :=
  negb (test greetingRe normalized
        || (test gratitudeRe normalized || test thanksRe normalized)
        || test farewellRe normalized
        || test identityRe normalized
        || test planRe normalized
        || test ideaRe normalized
        || test jokeRe normalized
        || test weatherRe normalized)
  && test timeRe normalized.

(** One of the ten patterns in front of the summary pattern matches. *)
Definition matchesBeforeSummary (normalized : jsstring) : bool :=
  test greetingRe normalized
  || (test gratitudeRe normalized || test thanksRe normalized)
  || test farewellRe normalized
  || test identityRe normalized
  || test planRe normalized
  || test ideaRe normalized
  || test jokeRe normalized
  || test weatherRe normalized
  || test timeRe normalized
  || test explainRe normalized.

(** The entries with role user, and whether an entry carries a string
    under [content]. *)
Definition userEntries (entries : list value) : list value :=
  List.filter (roleIs "user") entries.

Definition hasText (v : value) : bool :=
  match v with
  | VObj props =>
    match ownProp (js "content") props with VStr _ => true | _ => false end
  | _ => false
  end.

(** A payload the page can show: a reply that is not empty, and three
    suggestions or the four default ones, none of them empty. *)
Definition wellFormed (answer : ResponsePayload) : Prop :=
  reply answer <> []
  /\ (List.length (suggestions answer) = 3%nat
      \/ suggestions answer = fallbackSuggestions)
  /\ Forall (fun s => s <> []) (suggestions answer).

(** *** The page *)

Definition otherRole (r : Role) : Role :=
  match r with user => assistant | assistant => user end.

Definition sameRole (a b : Role) : bool :=
  match a, b with
  | user, user | assistant, assistant => true
  | _, _ => false
  end.

(** The turns alternate, beginning with [first]. *)
Fixpoint alternates (first : Role) (ms : list Page.Message) : bool :=
  match ms with
  | [] => true
  | m :: rest =>
    sameRole (Page.role m) first && alternates (otherRole first) rest
  end.

(** The typed reading of a transcript. *)
Definition toChat (m : Page.Message) : ChatMessage :=
  {| role := Page.role m; content := Page.content m |}.

(** What holds of the page at all times: the transcript alternates
    from the assistant's greeting on; while the loading flag is up the
    transcript ends on a user turn and exactly one request is under
    way, carrying the whole transcript; otherwise the transcript ends
    on an assistant turn and no request is under way. *)
Definition consistent (w : Page.World) : Prop :=
  alternates assistant (Page.messages (Page.ui w)) = true
  /\ Page.isLoading (Page.ui w)
     = Nat.even (List.length (Page.messages (Page.ui w)))
  /\ Page.inFlight w
     = if Page.isLoading (Page.ui w)
       then [Page.requestBody (Page.messages (Page.ui w))]
       else [].

End Spec.

(** ** The regular-expression engine on white space *)

Import JS Dyn Route Spec.
Local Open Scope N_scope.

(** Splits conjunctions, and nothing else. *)
Ltac conj := repeat match goal with |- _ /\ _ => split end.

Section WhiteSpaceRuns.

Lemma plusRun_whitespace (prev : option N) (c : N) (t : jsstring) :
  plusRun isWhiteSpace prev (c :: t) accept
  = if isWhiteSpace c then Some (trimStart t) else None.
Proof.
  revert prev c; induction t as [|d t IH]; intros prev c; simpl.
  - destruct (isWhiteSpace c); reflexivity.
  - destruct (isWhiteSpace c) eqn:Hc; [|reflexivity].
    specialize (IH (Some c) d); simpl in IH; rewrite IH.
    destruct (isWhiteSpace d); reflexivity.
Qed.

Lemma trimStart_length (s : jsstring) :
  (List.length (trimStart s) + leadingRun s = List.length s)%nat.
Proof.
  induction s as [|c t IH]; simpl; [reflexivity|].
  destruct (isWhiteSpace c); simpl; lia.
Qed.

Lemma squeeze_run (s : jsstring) :
  startsWithSpace s = false -> squeeze true s = squeeze false s.
Proof.
  destruct s as [|c t]; simpl; [reflexivity|].
  intros ->; reflexivity.
Qed.

(** The scan with [/\s+/g] is [squeeze]: at a run the whole run is
    matched, one space is written and the rest of the run skipped. *)
Lemma replaceScan_whitespace (s : jsstring) :
  forall prev,
    replaceScan false (Plus isWhiteSpace) (js " ") O prev s
    = squeeze false s
    /\ replaceScan false (Plus isWhiteSpace) (js " ") (leadingRun s) prev s
       = squeeze true s.
Proof.
  induction s as [|c t IH]; intros prev.
  - split; reflexivity.
  - assert (H0 : replaceScan false (Plus isWhiteSpace) (js " ") O prev (c :: t)
                 = squeeze false (c :: t)).
    { cbn [replaceScan]. unfold matchHere. cbn [matchRe].
      rewrite plusRun_whitespace. cbn [squeeze].
      destruct (isWhiteSpace c) eqn:Hc.
      - pose proof (trimStart_length t) as Hlen.
        replace (List.length (c :: t) - List.length (trimStart t))%nat
          with (S (leadingRun t)) by (cbn [List.length]; lia).
        destruct (IH (Some c)) as [_ ->]. reflexivity.
      - destruct (IH (Some c)) as [-> _]. reflexivity. }
    split; [exact H0|].
    cbn [leadingRun]. destruct (isWhiteSpace c) eqn:Hc.
    + cbn [replaceScan squeeze]. rewrite Hc.
      destruct (IH (Some c)) as [_ ->]. reflexivity.
    + rewrite H0. cbn [squeeze]. rewrite Hc. reflexivity.
Qed.

Lemma sanitize_squeeze (s : jsstring) :
  sanitize s = squeeze false (trim s).
Proof.
  unfold sanitize, replaceAll.
  apply (proj1 (replaceScan_whitespace (trim s) None)).
Qed.

End WhiteSpaceRuns.

(** ** [trim] and the normal form of [sanitize] *)

Section Trim.

Lemma trimStart_clean (s : jsstring) :
  startsWithSpace (trimStart s) = false.
Proof.
  induction s as [|c t IH]; simpl; [reflexivity|].
  destruct (isWhiteSpace c) eqn:Hc; [exact IH|simpl; exact Hc].
Qed.

Lemma trimStart_fixed (s : jsstring) :
  startsWithSpace s = false -> trimStart s = s.
Proof.
  destruct s as [|c t]; simpl; [reflexivity|]. intros ->; reflexivity.
Qed.

Lemma trimStart_snoc (s : jsstring) (c : N) :
  isWhiteSpace c = false -> trimStart (s ++ [c]) = trimStart s ++ [c].
Proof.
  intros Hc; induction s as [|d t IH]; simpl.
  - rewrite Hc; reflexivity.
  - destruct (isWhiteSpace d); [exact IH|reflexivity].
Qed.

Lemma endsWithSpace_snoc (s : jsstring) (c : N) :
  endsWithSpace (s ++ [c]) = isWhiteSpace c.
Proof.
  induction s as [|d t IH]; [reflexivity|].
  change ((d :: t) ++ [c]) with (d :: (t ++ [c])).
  cbn [endsWithSpace]. destruct (t ++ [c]) eqn:E; [|exact IH].
  destruct t; discriminate E.
Qed.

Lemma endsWithSpace_rev (s : jsstring) :
  endsWithSpace s = startsWithSpace (rev s).
Proof.
  rewrite <- (rev_involutive s) at 1.
  destruct (rev s) as [|c t]; [reflexivity|].
  simpl rev. apply endsWithSpace_snoc.
Qed.

Lemma trimEnd_clean (s : jsstring) : endsWithSpace (trimEnd s) = false.
Proof.
  rewrite endsWithSpace_rev. unfold trimEnd.
  rewrite rev_involutive. apply trimStart_clean.
Qed.

Lemma trimEnd_fixed (s : jsstring) :
  endsWithSpace s = false -> trimEnd s = s.
Proof.
  rewrite endsWithSpace_rev. intros H. unfold trimEnd.
  rewrite (trimStart_fixed _ H). apply rev_involutive.
Qed.

Lemma trimEnd_cons (c : N) (t : jsstring) :
  isWhiteSpace c = false -> trimEnd (c :: t) = c :: trimEnd t.
Proof.
  intros Hc. unfold trimEnd. simpl rev.
  rewrite (trimStart_snoc _ _ Hc), rev_app_distr. reflexivity.
Qed.

Lemma trimEnd_head (s : jsstring) :
  startsWithSpace s = false -> startsWithSpace (trimEnd s) = false.
Proof.
  destruct s as [|c t]; [reflexivity|]. simpl. intros Hc.
  rewrite (trimEnd_cons _ _ Hc). exact Hc.
Qed.

Lemma trim_clean (s : jsstring) :
  startsWithSpace (trim s) = false /\ endsWithSpace (trim s) = false.
Proof.
  unfold trim; split.
  - apply trimEnd_head, trimStart_clean.
  - apply trimEnd_clean.
Qed.

Lemma trim_fixed (s : jsstring) :
  startsWithSpace s = false -> endsWithSpace s = false -> trim s = s.
Proof.
  intros Hs He. unfold trim.
  rewrite (trimStart_fixed _ Hs). apply trimEnd_fixed, He.
Qed.

Lemma ink_trimStart (s : jsstring) : ink (trimStart s) = ink s.
Proof.
  induction s as [|c t IH]; simpl; [reflexivity|].
  destruct (isWhiteSpace c) eqn:Hc; simpl; [exact IH|].
  rewrite Hc; reflexivity.
Qed.

Lemma ink_rev (s : jsstring) : ink (rev s) = rev (ink s).
Proof.
  unfold ink. induction s as [|c t IH]; simpl; [reflexivity|].
  rewrite filter_app, IH. simpl.
  destruct (isWhiteSpace c); simpl; [apply app_nil_r|reflexivity].
Qed.

Lemma ink_trim (s : jsstring) : ink (trim s) = ink s.
Proof.
  unfold trim, trimEnd.
  rewrite ink_rev, ink_trimStart, ink_rev, rev_involutive.
  apply ink_trimStart.
Qed.

Lemma ink_squeeze (b : bool) (s : jsstring) : ink (squeeze b s) = ink s.
Proof.
  revert b; induction s as [|c t IH]; intros b; simpl; [reflexivity|].
  destruct (isWhiteSpace c) eqn:Hc.
  - destruct b; simpl; apply IH.
  - simpl. rewrite Hc. simpl. f_equal. apply IH.
Qed.

(** After a run, what [squeeze] writes next is not white space. *)
Lemma squeeze_resumes (s : jsstring) :
  endsWithSpace s = false -> s <> [] ->
  exists d rest, squeeze true s = d :: rest /\ isWhiteSpace d = false.
Proof.
  induction s as [|c t IH]; intros He Hne; [contradiction|].
  cbn [squeeze]. destruct (isWhiteSpace c) eqn:Hc.
  - destruct t as [|d t']; [simpl in He; congruence|].
    apply IH; [exact He|discriminate].
  - eauto.
Qed.

Lemma endsWithSpace_tail (c : N) (t : jsstring) :
  endsWithSpace (c :: t) = false -> endsWithSpace t = false.
Proof. destruct t; [reflexivity|intros H; exact H]. Qed.

Lemma squeeze_singleSpaced (s : jsstring) :
  endsWithSpace s = false -> forall b, singleSpaced (squeeze b s) = true.
Proof.
  induction s as [|c t IH]; intros He b; [reflexivity|].
  pose proof (IH (endsWithSpace_tail _ _ He)) as IHt.
  cbn [squeeze]. destruct (isWhiteSpace c) eqn:Hc.
  - destruct b; [apply IHt|].
    assert (Hne : t <> []) by (intros ->; simpl in He; congruence).
    destruct (squeeze_resumes _ (endsWithSpace_tail _ _ He) Hne)
      as (d & rest & Hsq & Hd).
    cbn [singleSpaced]. rewrite (IHt true), Hsq, Hd. reflexivity.
  - cbn [singleSpaced]. rewrite Hc, IHt. reflexivity.
Qed.

Lemma squeeze_head (s : jsstring) :
  startsWithSpace s = false -> startsWithSpace (squeeze false s) = false.
Proof.
  destruct s as [|c t]; [reflexivity|]. simpl. intros Hc.
  rewrite Hc. simpl. exact Hc.
Qed.

Lemma singleSpaced_end (s : jsstring) :
  singleSpaced s = true -> endsWithSpace s = false.
Proof.
  induction s as [|c t IH]; [reflexivity|].
  cbn [singleSpaced endsWithSpace]. intros H.
  apply andb_prop in H as [Hc Ht]. destruct t as [|d t'].
  - destruct (isWhiteSpace c); [|reflexivity].
    rewrite andb_false_r in Hc; discriminate.
  - apply IH, Ht.
Qed.

Lemma squeeze_fixed (s : jsstring) :
  singleSpaced s = true -> squeeze false s = s.
Proof.
  induction s as [|c t IH]; [reflexivity|].
  cbn [singleSpaced squeeze]. intros H.
  apply andb_prop in H as [Hc Ht]. specialize (IH Ht).
  destruct (isWhiteSpace c) eqn:Hws.
  - apply andb_prop in Hc as [Hsp Hnext].
    apply N.eqb_eq in Hsp; subst c.
    destruct t as [|d t']; [discriminate|].
    rewrite squeeze_run, IH; [reflexivity|].
    simpl. destruct (isWhiteSpace d); [discriminate|reflexivity].
  - rewrite IH; reflexivity.
Qed.

Lemma squeeze_end (s : jsstring) :
  endsWithSpace s = false -> forall b, endsWithSpace (squeeze b s) = false.
Proof.
  intros He b. apply singleSpaced_end, squeeze_singleSpaced, He.
Qed.

(** [sanitize] yields the normal form, keeps normal forms as they
    are, and keeps every code unit that is not white space. *)
Lemma sanitize_tidy (s : jsstring) : tidy (sanitize s) = true.
Proof.
  rewrite sanitize_squeeze. destruct (trim_clean s) as [Hs He].
  unfold tidy.
  rewrite (squeeze_head _ Hs), (squeeze_end _ He), (squeeze_singleSpaced _ He).
  reflexivity.
Qed.

Lemma sanitize_fixed (s : jsstring) : tidy s = true -> sanitize s = s.
Proof.
  unfold tidy. intros H.
  apply andb_prop in H as [H Hss]. apply andb_prop in H as [Hs He].
  apply negb_true_iff in Hs, He.
  rewrite sanitize_squeeze, (trim_fixed _ Hs He). apply squeeze_fixed, Hss.
Qed.

Lemma sanitize_involutive (s : jsstring) :
  sanitize (sanitize s) = sanitize s.
Proof. apply sanitize_fixed, sanitize_tidy. Qed.

Lemma sanitize_ink (s : jsstring) : ink (sanitize s) = ink s.
Proof. rewrite sanitize_squeeze, ink_squeeze. apply ink_trim. Qed.

End Trim.

(** ** The regular-expression engine on keyword alternations *)

Section Keywords.

Lemma matchRe_wordOf (w : jsstring) :
  forall prev s k,
    match stripPrefix w s with
    | Some rest => exists prev', matchRe true (wordOf w) prev s k = k prev' rest
    | None => matchRe true (wordOf w) prev s k = None
    end.
Proof.
  induction w as [|x w IH]; intros prev s k.
  - simpl. exists prev. reflexivity.
  - destruct s as [|y s]; [reflexivity|].
    cbn [stripPrefix wordOf fold_right matchRe]. unfold sameChar.
    destruct (canonicalize x =? canonicalize y); [|reflexivity].
    apply (IH (Some y) s k).
Qed.

Lemma matchHere_wordOf (w : jsstring) (prev : option N) (s : jsstring) :
  matchHere true (wordOf w) prev s = stripPrefix w s.
Proof.
  unfold matchHere. pose proof (matchRe_wordOf w prev s accept) as H.
  destruct (stripPrefix w s); [destruct H as [p' ->]; reflexivity|exact H].
Qed.

Lemma matchHere_alt (r1 r2 : regex) (prev : option N) (s : jsstring) :
  matchHere true (Alt r1 r2) prev s
  = match matchHere true r1 prev s with
    | Some rest => Some rest
    | None => matchHere true r2 prev s
    end.
Proof. reflexivity. Qed.

Lemma matchHere_words (keywords : list jsstring) (prev : option N)
  (s : jsstring) :
  matchHere true (oneOf (map wordOf keywords)) prev s = firstHit keywords s.
Proof.
  induction keywords as [|w rest IH]; [destruct s; reflexivity|].
  destruct rest as [|w' rest'].
  - simpl. rewrite matchHere_wordOf. destruct (stripPrefix w s); reflexivity.
  - change (oneOf (map wordOf (w :: w' :: rest')))
      with (Alt (wordOf w) (oneOf (map wordOf (w' :: rest')))).
    rewrite matchHere_alt, matchHere_wordOf, IH. reflexivity.
Qed.

Lemma matchHere_planStrip (prev : option N) (s : jsstring) :
  matchHere true planStrip prev s = firstHit planWords s.
Proof. exact (matchHere_words planWords prev s). Qed.

(** In [/plan|idea|ideas?|brainstorm|help/] the third alternative is
    only tried where [idea] has failed, and fails there too. *)
Lemma matchHere_ideasStrip (prev : option N) (s : jsstring) :
  matchHere true ideasStrip prev s = firstHit ideasWords s.
Proof.
  unfold ideasStrip.
  cbn [oneOf]. rewrite !matchHere_alt. unfold word. rewrite !matchHere_wordOf.
  cbn [ideasWords firstHit].
  destruct (stripPrefix (js "plan") s); [reflexivity|].
  destruct (stripPrefix (js "idea") s) eqn:Hidea; [reflexivity|].
  assert (Hs : matchHere true (Seq (wordOf (js "idea")) (Opt (Chr 115))) prev s
               = None).
  { unfold matchHere. cbn [matchRe].
    pose proof (matchRe_wordOf (js "idea") prev s
                  (fun p' s' => matchRe true (Opt (Chr 115)) p' s' accept)) as H.
    rewrite Hidea in H. exact H. }
  rewrite Hs.
  destruct (stripPrefix (js "brainstorm") s); [reflexivity|].
  destruct (stripPrefix (js "help") s); reflexivity.
Qed.

Lemma stripPrefix_skipn (w : jsstring) :
  forall s rest,
    stripPrefix w s = Some rest ->
    rest = skipn (List.length w) s
    /\ (List.length rest + List.length w = List.length s)%nat.
Proof.
  induction w as [|x w IH]; intros s rest H.
  - simpl in H. injection H as <-. simpl. split; [reflexivity|lia].
  - destruct s as [|y s]; [discriminate|]. simpl in H.
    destruct (canonicalize x =? canonicalize y); [|discriminate].
    destruct (IH s rest H) as [-> Hlen]. split; [reflexivity|].
    cbn [List.length]. lia.
Qed.

Lemma firstHit_some (keywords : list jsstring) (s rest : jsstring) :
  firstHit keywords s = Some rest ->
  exists w, In w keywords /\ stripPrefix w s = Some rest.
Proof.
  induction keywords as [|w ws IH]; [discriminate|]. simpl.
  destruct (stripPrefix w s) eqn:Hw.
  - intros [= <-]. exists w. auto.
  - intros H. destruct (IH H) as (w' & Hin & Hs). exists w'. auto.
Qed.

Lemma firstHit_none (keywords : list jsstring) (s : jsstring) :
  firstHit keywords s = None ->
  forall w, In w keywords -> stripPrefix w s = None.
Proof.
  induction keywords as [|w ws IH]; [contradiction|]. simpl.
  destruct (stripPrefix w s) eqn:Hw; [discriminate|].
  intros H w' [<-|Hin]; [exact Hw|exact (IH H w' Hin)].
Qed.

(** Passing over the rest of a match. *)
Lemma replaceScan_skip (ic : bool) (r : regex) (n : nat) :
  forall s prev,
    exists prev',
      replaceScan ic r [] n prev s = replaceScan ic r [] O prev' (skipn n s).
Proof.
  induction n as [|n IH]; intros s prev.
  - exists prev. reflexivity.
  - destruct s as [|c t].
    + exists prev. cbn [replaceScan skipn].
      destruct (matchHere ic r prev []); reflexivity.
    + cbn [replaceScan skipn]. apply IH.
Qed.

Variable pattern : regex.
Variable keywords : list jsstring.
Hypothesis pattern_keywords :
  forall prev s, matchHere true pattern prev s = firstHit keywords s.
Hypothesis keywords_nonempty : forall w, In w keywords -> w <> [].

Lemma replaceScan_stripped (n : nat) :
  forall s, (List.length s <= n)%nat ->
  forall prev, Stripped keywords s (replaceScan true pattern [] O prev s).
Proof.
  induction n as [|n IH]; intros s Hlen prev.
  - destruct s; [|simpl in Hlen; lia].
    cbn [replaceScan]. destruct (matchHere true pattern prev []); constructor.
  - destruct s as [|c t].
    + cbn [replaceScan]. destruct (matchHere true pattern prev []); constructor.
    + cbn [replaceScan]. rewrite pattern_keywords.
      destruct (firstHit keywords (c :: t)) as [rest|] eqn:Hhit.
      * destruct (firstHit_some _ _ _ Hhit) as (w & Hin & Hw).
        pose proof (keywords_nonempty w Hin) as Hne.
        destruct (stripPrefix_skipn _ _ _ Hw) as [Hrest Hl].
        destruct w as [|x w]; [contradiction|].
        cbn [List.length] in Hl, Hrest.
        replace (List.length (c :: t) - List.length rest)%nat
          with (S (List.length w)) by (cbn [List.length]; lia).
        cbn [app]. cbn [skipn] in Hrest.
        destruct (replaceScan_skip true pattern (List.length w) t (Some c))
          as [prev' ->].
        rewrite <- Hrest.
        apply stripped_hit with (w := x :: w) (rest := rest); [exact Hin|exact Hne|exact Hw|].
        apply IH. cbn [List.length] in Hlen. lia.
      * apply stripped_keep; [exact (firstHit_none _ _ Hhit)|].
        apply IH. cbn [List.length] in Hlen. lia.
Qed.

Lemma replaceAll_stripped (s : jsstring) :
  Stripped keywords s (replaceAll true pattern [] s).
Proof. exact (replaceScan_stripped (List.length s) s (le_n _) None). Qed.

End Keywords.

Section StrippedUnique.

Lemma stripPrefix_initial (w s rest : jsstring) :
  stripPrefix w s = Some rest -> w <> [] -> initial w = initial s.
Proof.
  destruct w as [|x w]; [contradiction|].
  destruct s as [|y s]; [discriminate|]. simpl.
  destruct (canonicalize x =? canonicalize y) eqn:E; [|discriminate].
  apply N.eqb_eq in E. rewrite E. reflexivity.
Qed.

Variable keywords : list jsstring.
Hypothesis distinct_initials :
  forall w1 w2,
    In w1 keywords -> In w2 keywords -> initial w1 = initial w2 -> w1 = w2.

(** With keywords that start with different letters, at most one of
    them occurs at a position: stripping has one outcome. *)
Lemma Stripped_unique (s a : jsstring) :
  Stripped keywords s a -> forall b, Stripped keywords s b -> a = b.
Proof.
  induction 1 as [|w s rest out Hin Hne Hw _ IH|c t out Hnone _ IH];
    intros b Hb.
  - inversion Hb as [|w' s' rest' out' Hin' Hne' Hw' _|]; subst;
      [reflexivity|].
    destruct w'; [contradiction|discriminate].
  - inversion Hb as [|w' s' rest' out' Hin' Hne' Hw' Hrest'|c' t' out' Hnone' _];
      subst.
    + destruct w; [contradiction|discriminate].
    + assert (w = w').
      { apply distinct_initials; trivial.
        rewrite (stripPrefix_initial _ _ _ Hw Hne).
        symmetry. exact (stripPrefix_initial _ _ _ Hw' Hne'). }
      subst w'. rewrite Hw in Hw'. injection Hw' as <-. apply IH, Hrest'.
    + rewrite (Hnone' w Hin) in Hw. discriminate.
  - inversion Hb as [|w' s' rest' out' Hin' Hne' Hw' _|c' t' out' _ Hrest'];
      subst.
    + rewrite (Hnone w' Hin') in Hw'. discriminate.
    + f_equal. apply IH, Hrest'.
Qed.

End StrippedUnique.

Lemma planWords_nonempty (w : jsstring) : In w planWords -> w <> [].
Proof.
  unfold planWords. simpl.
  intros [<-|[<-|[<-|[<-|[]]]]]; vm_compute; discriminate.
Qed.

Lemma ideasWords_nonempty (w : jsstring) : In w ideasWords -> w <> [].
Proof.
  unfold ideasWords. simpl.
  intros [<-|[<-|[<-|[<-|[]]]]]; vm_compute; discriminate.
Qed.

Lemma planWords_distinct (w1 w2 : jsstring) :
  In w1 planWords -> In w2 planWords -> initial w1 = initial w2 -> w1 = w2.
Proof.
  unfold planWords. simpl.
  intros [<-|[<-|[<-|[<-|[]]]]] [<-|[<-|[<-|[<-|[]]]]] H;
    try reflexivity; vm_compute in H; discriminate H.
Qed.

Lemma ideasWords_distinct (w1 w2 : jsstring) :
  In w1 ideasWords -> In w2 ideasWords -> initial w1 = initial w2 -> w1 = w2.
Proof.
  unfold ideasWords. simpl.
  intros [<-|[<-|[<-|[<-|[]]]]] [<-|[<-|[<-|[<-|[]]]]] H;
    try reflexivity; vm_compute in H; discriminate H.
Qed.

(** Stripping with the plan pattern, and with the ideas pattern, is the
    one outcome of [Stripped] for their keywords. *)
Lemma planStrip_spec (s out : jsstring) :
  Stripped planWords s out <-> out = replaceAll true planStrip [] s.
Proof.
  pose proof (replaceAll_stripped planStrip planWords
                matchHere_planStrip planWords_nonempty s) as Hcode.
  split.
  - intros H. exact (Stripped_unique planWords planWords_distinct s out H _ Hcode).
  - intros ->. exact Hcode.
Qed.

Lemma ideasStrip_spec (s out : jsstring) :
  Stripped ideasWords s out <-> out = replaceAll true ideasStrip [] s.
Proof.
  pose proof (replaceAll_stripped ideasStrip ideasWords
                matchHere_ideasStrip ideasWords_nonempty s) as Hcode.
  split.
  - intros H.
    exact (Stripped_unique ideasWords ideasWords_distinct s out H _ Hcode).
  - intros ->. exact Hcode.
Qed.

(** ** The handler on typed histories *)

Local Open Scope js_scope.

Section TypedHistory.

Lemma hasRole_user (m : ChatMessage) :
  hasRole "user" (ofMessage m) = Ok (isUser m).
Proof. destruct m as [[] text]; reflexivity. Qed.

Lemma hasRole_assistant (m : ChatMessage) :
  hasRole "assistant" (ofMessage m) = Ok (isAssistant m).
Proof. destruct m as [[] text]; reflexivity. Qed.

Lemma content_ofMessage (m : ChatMessage) :
  getProp (ofMessage m) (js "content") = Ok (VStr (content m)).
Proof. reflexivity. Qed.

Lemma filter_users (h : list ChatMessage) :
  Dyn.filter (hasRole "user") (map ofMessage h)
  = Ok (map ofMessage (List.filter isUser h)).
Proof.
  induction h as [|m h IH]; [reflexivity|].
  cbn [map Dyn.filter List.filter]. rewrite hasRole_user, IH.
  cbn [bind]. destruct (isUser m); reflexivity.
Qed.

Lemma find_typed (name : string) (p : ChatMessage -> bool) :
  (forall m, hasRole name (ofMessage m) = Ok (p m)) ->
  forall h,
    Dyn.find (hasRole name) (map ofMessage h) = Ok (ofFound (List.find p h)).
Proof.
  intros Hp h. induction h as [|m h IH]; [reflexivity|].
  cbn [map Dyn.find List.find]. rewrite Hp. cbn [bind].
  destruct (p m); [reflexivity|exact IH].
Qed.

Lemma truthy_ofFound (found : option ChatMessage) :
  truthy (ofFound found) = match found with Some _ => true | None => false end.
Proof. destruct found; reflexivity. Qed.

Lemma find_append (A : Type) (p : A -> bool) (xs ys : list A) :
  List.find p (xs ++ ys)
  = match List.find p xs with
    | Some x => Some x
    | None => List.find p ys
    end.
Proof.
  induction xs as [|x xs IH]; [reflexivity|].
  simpl. destruct (p x); [reflexivity|exact IH].
Qed.

Lemma find_rev_some (p : ChatMessage -> bool) (h : list ChatMessage) :
  match List.find p (rev h) with
  | Some m =>
    exists before after,
      h = before ++ m :: after /\ p m = true /\ forallb (fun x => negb (p x)) after = true
  | None => forallb (fun x => negb (p x)) h = true
  end.
Proof.
  induction h as [|m h IH]; [reflexivity|].
  simpl rev. rewrite find_append.
  destruct (List.find p (rev h)) as [found|].
  - destruct IH as (before & after & -> & Hp & Hafter).
    exists (m :: before), after. auto.
  - simpl. destruct (p m) eqn:Hm.
    + exists [], h. auto.
    + simpl. exact IH.
Qed.

Lemma find_rev_exists (p : ChatMessage -> bool) (h : list ChatMessage) :
  match List.find p (rev h) with Some _ => true | None => false end
  = existsb p h.
Proof.
  induction h as [|m h IH]; [reflexivity|].
  simpl rev. rewrite find_append. cbn [existsb]. rewrite <- IH.
  destruct (List.find p (rev h)); [apply eq_sym, orb_true_r|].
  simpl. destruct (p m); reflexivity.
Qed.

Lemma summaryLine_typed (m : ChatMessage) (index : nat) :
  summaryLine (ofMessage m) index = Ok (numberedLine index m).
Proof. reflexivity. Qed.

Lemma mapi_typed (turns : list ChatMessage) :
  forall index,
    mapi summaryLine index (map ofMessage turns) = Ok (numbered index turns).
Proof.
  induction turns as [|m rest IH]; intros index; [reflexivity|].
  cbn [map mapi]. rewrite summaryLine_typed. cbn [bind].
  rewrite IH. reflexivity.
Qed.

Lemma sliceLast_lastN (A : Type) (n : nat) (xs : list A) :
  sliceLast n xs = lastN n xs.
Proof.
  unfold sliceLast, lastN. rewrite firstn_rev, rev_involutive. reflexivity.
Qed.

Lemma sliceLast_map (A B : Type) (f : A -> B) (n : nat) (xs : list A) :
  sliceLast n (map f xs) = map f (sliceLast n xs).
Proof. unfold sliceLast. rewrite length_map, skipn_map. reflexivity. Qed.

Lemma lastN_suffix (A : Type) (n : nat) (xs : list A) :
  exists older,
    xs = older ++ lastN n xs
    /\ List.length (lastN n xs) = Nat.min n (List.length xs).
Proof.
  rewrite <- sliceLast_lastN. unfold sliceLast.
  exists (firstn (List.length xs - n) xs). split.
  - symmetry. apply firstn_skipn.
  - rewrite length_skipn. lia.
Qed.

Lemma summarize_typed (h : list ChatMessage) :
  summarizeConversation (map ofMessage h)
  = Ok (match numbered 0 (recentUsers h) with
        | [] => exploringMessage
        | l :: ls => trackingMessage (l :: ls)
        end).
Proof.
  unfold summarizeConversation, recentUsers.
  rewrite filter_users. cbn [bind].
  rewrite sliceLast_map, mapi_typed, sliceLast_lastN. cbn [bind].
  destruct (numbered 0 (lastN 3 (List.filter isUser h))); reflexivity.
Qed.

Lemma numbered_length (turns : list ChatMessage) :
  forall index, List.length (numbered index turns) = List.length turns.
Proof.
  induction turns as [|m rest IH]; intros index; [reflexivity|].
  simpl. rewrite IH. reflexivity.
Qed.

Lemma numbered_nth (turns : list ChatMessage) :
  forall index i m,
    nth_error turns i = Some m ->
    nth_error (numbered index turns) i = Some (numberedLine (index + i) m).
Proof.
  induction turns as [|x rest IH]; intros index i m H.
  - destruct i; discriminate.
  - destruct i as [|i]; simpl in *.
    + injection H as ->. rewrite Nat.add_0_r. reflexivity.
    + rewrite (IH (S index) i m H). do 2 f_equal. lia.
Qed.

Lemma lastAssistant_typed (h : list ChatMessage) :
  Dyn.find (hasRole "assistant") (rev (map ofMessage h))
  = Ok (ofFound (List.find isAssistant (rev h))).
Proof. rewrite <- map_rev. apply find_typed, hasRole_assistant. Qed.

Lemma lastUser_typed (h : list ChatMessage) :
  Dyn.find (hasRole "user") (rev (map ofMessage h))
  = Ok (ofFound (List.find isUser (rev h))).
Proof. rewrite <- map_rev. apply find_typed, hasRole_user. Qed.

End TypedHistory.

(** ** The dispatch chain *)

Section Dispatch.

Variable clock : jsstring.

(** Past the keyword branches only the follow-up test is left. *)
Lemma buildResponse_past_keywords (text : jsstring) (history : list value) :
  matchesKeyword (toLowerCase text) = false ->
  buildResponse clock (VStr text) history
  = (lastAssistantResponse <- Dyn.find (hasRole "assistant") (rev history) ;;
     if truthy lastAssistantResponse
        && includes (toLowerCase text) (js "expand")
     then Ok expandPayload
     else Ok (fallbackPayload text)).
Proof.
  unfold matchesKeyword. intros H.
  repeat (apply orb_false_elim in H; destruct H as [H ?]).
  unfold buildResponse. cbn [asString bind].
  repeat match goal with
         | E : ?b = false |- context [if ?b then _ else _] => rewrite E
         end.
  cbn [orb]. reflexivity.
Qed.

Lemma buildResponse_follow_up (text : jsstring) (h : list ChatMessage) :
  matchesKeyword (toLowerCase text) = false ->
  buildResponse clock (VStr text) (map ofMessage h)
  = Ok (if existsb isAssistant h && includes (toLowerCase text) (js "expand")
        then expandPayload
        else fallbackPayload text).
Proof.
  intros H. rewrite (buildResponse_past_keywords _ _ H).
  rewrite lastAssistant_typed. cbn [bind].
  rewrite truthy_ofFound, find_rev_exists.
  destruct (existsb isAssistant h && includes (toLowerCase text) (js "expand"));
    reflexivity.
Qed.

(** On a typed history every branch returns. *)
Lemma buildResponse_returns (text : jsstring) (h : list ChatMessage) :
  exists answer, buildResponse clock (VStr text) (map ofMessage h) = Ok answer.
Proof.
  destruct (matchesKeyword (toLowerCase text)) eqn:Hk.
  2:{ rewrite (buildResponse_follow_up _ _ Hk). eauto. }
  unfold buildResponse. cbn [asString bind].
  repeat match goal with
         | |- context [if ?b then _ else _] => destruct b; [eauto|]
         end.
  - rewrite summarize_typed. cbn [bind]. eauto.
  - rewrite lastAssistant_typed. cbn [bind].
    destruct (truthy _ && _); eauto.
Qed.

End Dispatch.

(** ** Blank input *)

Section Blank.

Local Open Scope N_scope.

Lemma isWhiteSpace_cases (x : N) :
  isWhiteSpace x = true ->
  9 <= x <= 13 \/ x = 32 \/ x = 160 \/ x = 5760 \/ 8192 <= x <= 8202
  \/ x = 8232 \/ x = 8233 \/ x = 8239 \/ x = 8287 \/ x = 12288 \/ x = 65279.
Proof.
  unfold isWhiteSpace.
  rewrite !orb_true_iff, !andb_true_iff, !N.leb_le, !N.eqb_eq. tauto.
Qed.

Lemma lowerUnit_blank (x : N) : isWhiteSpace x = true -> lowerUnit x = [x].
Proof.
  intros H. apply isWhiteSpace_cases in H. unfold lowerUnit.
  repeat match goal with
         | |- context [?a <=? ?b] => destruct (N.leb_spec a b); try lia
         | |- context [?a =? ?b] => destruct (N.eqb_spec a b); try lia
         end; reflexivity.
Qed.

Lemma toLowerCase_blank (s : jsstring) :
  forallb isWhiteSpace s = true -> toLowerCase s = s.
Proof.
  induction s as [|x t IH]; [reflexivity|]. simpl.
  intros H. apply andb_prop in H as [Hx Ht].
  unfold toLowerCase in *. simpl. rewrite (lowerUnit_blank _ Hx), (IH Ht).
  reflexivity.
Qed.

Lemma trimStart_blank (s : jsstring) :
  forallb isWhiteSpace s = true -> trimStart s = [].
Proof.
  induction s as [|x t IH]; [reflexivity|]. simpl.
  intros H. apply andb_prop in H as [-> Ht]. exact (IH Ht).
Qed.

Lemma sanitize_blank (s : jsstring) :
  forallb isWhiteSpace s = true -> sanitize s = [].
Proof.
  intros H. rewrite sanitize_squeeze. unfold trim.
  rewrite (trimStart_blank _ H). reflexivity.
Qed.

Lemma plusRun_blank (p : N -> bool) (k : cont) (s : jsstring) :
  (forall prev' s', forallb isWhiteSpace s' = true -> k prev' s' = None) ->
  forallb isWhiteSpace s = true ->
  forall prev, plusRun p prev s k = None.
Proof.
  intros Hk. induction s as [|x t IH]; intros Hs prev; [reflexivity|].
  simpl in Hs. apply andb_prop in Hs as [Hx Ht].
  simpl. destruct (p x); [|reflexivity].
  rewrite (IH Ht). apply Hk, Ht.
Qed.

(** On blank input a case-sensitive pattern that needs ink fails, and
    any other pattern fails unless its continuation succeeds on blank
    input. *)
Lemma matchRe_blank (r : regex) :
  forall prev s k,
    forallb isWhiteSpace s = true ->
    needsInk r = true
    \/ (forall prev' s', forallb isWhiteSpace s' = true -> k prev' s' = None) ->
    matchRe false r prev s k = None.
Proof.
  induction r as [|c|p| |r1 IH1 r2 IH2|r1 IH1 r2 IH2|r1 IH1|p];
    intros prev s k Hs H; cbn [matchRe needsInk] in *.
  - destruct H as [H|H]; [discriminate|]. apply H, Hs.
  - destruct s as [|x t]; [reflexivity|].
    simpl in Hs. apply andb_prop in Hs as [Hx Ht].
    unfold sameChar. destruct (N.eqb_spec c x) as [->|]; [|reflexivity].
    destruct H as [H|H]; [rewrite Hx in H; discriminate|]. apply H, Ht.
  - destruct s as [|x t]; [reflexivity|].
    simpl in Hs. apply andb_prop in Hs as [Hx Ht].
    destruct H as [H|H]; [discriminate|].
    destruct (p x); [apply H, Ht|reflexivity].
  - destruct H as [H|H]; [discriminate|].
    destruct (xorb _ _); [apply H, Hs|reflexivity].
  - apply IH1; [exact Hs|].
    destruct (needsInk r1); [left; reflexivity|right].
    intros prev' s' Hs'. apply IH2; [exact Hs'|exact H].
  - rewrite IH1; [apply IH2; [exact Hs|]|exact Hs|].
    + destruct H as [H|H]; [left|right; exact H].
      apply andb_prop in H. apply H.
    + destruct H as [H|H]; [left|right; exact H].
      apply andb_prop in H. apply H.
  - destruct H as [H|H]; [discriminate|].
    rewrite IH1; [apply H, Hs|exact Hs|right; exact H].
  - destruct H as [H|H]; [discriminate|].
    apply plusRun_blank; assumption.
Qed.

Lemma test_blank (r : regex) (s : jsstring) :
  needsInk r = true -> forallb isWhiteSpace s = true -> test r s = false.
Proof.
  intros Hr. unfold test. generalize (@None N).
  induction s as [|x t IH]; intros prev Hs; cbn [search]; unfold matchHere;
    rewrite (matchRe_blank r prev _ accept Hs (or_introl Hr)).
  - reflexivity.
  - simpl in Hs. apply andb_prop in Hs as [_ Ht]. apply IH, Ht.
Qed.

Lemma matchesKeyword_blank (s : jsstring) :
  forallb isWhiteSpace s = true -> matchesKeyword s = false.
Proof.
  intros Hs. unfold matchesKeyword.
  rewrite !test_blank; trivial.
Qed.

Lemma includes_blank (s : jsstring) :
  forallb isWhiteSpace s = true -> includes s (js "expand") = false.
Proof.
  induction s as [|x t IH]; [reflexivity|]. intros Hs.
  simpl in Hs. apply andb_prop in Hs as [Hx Ht].
  cbn [includes]. rewrite (IH Ht), orb_false_r.
  change (js "expand") with (101 :: js "xpand"). cbn [startsWith].
  destruct (N.eqb_spec 101 x) as [<-|]; [discriminate Hx|reflexivity].
Qed.

End Blank.

(** ** Untyped entries *)

Section Untyped.

Lemma hasRole_untyped (name : string) (v : value) :
  hasRole name v = if nullish v then Throw TypeError else Ok (roleIs name v).
Proof. destruct v; reflexivity. Qed.

(** The backward scan passes over entries that are neither nullish
    nor of the role looked for. *)
Lemma find_passes (name : string) (skipped rest : list value) :
  forallb (fun e => negb (nullish e) && negb (roleIs name e)) skipped = true ->
  Dyn.find (hasRole name) (skipped ++ rest) = Dyn.find (hasRole name) rest.
Proof.
  induction skipped as [|e es IH]; [reflexivity|]. simpl.
  intros H. apply andb_prop in H as [He Hes]. apply andb_prop in He as [Hn Hr].
  rewrite hasRole_untyped.
  apply negb_true_iff in Hn, Hr. rewrite Hn, Hr. cbn [bind]. exact (IH Hes).
Qed.

Lemma find_hits (name : string) (e : value) (rest : list value) :
  roleIs name e = true -> Dyn.find (hasRole name) (e :: rest) = Ok e.
Proof.
  intros H. simpl. rewrite hasRole_untyped, H.
  destruct e; try discriminate H. reflexivity.
Qed.

Lemma find_throws (name : string) (skipped : list value) (e : value)
  (rest : list value) :
  forallb (fun x => negb (roleIs name x)) skipped = true ->
  nullish e = true ->
  Dyn.find (hasRole name) (skipped ++ e :: rest) = Throw TypeError.
Proof.
  intros Hs He. induction skipped as [|x xs IH]; simpl.
  - rewrite hasRole_untyped, He. reflexivity.
  - simpl in Hs. apply andb_prop in Hs as [Hx Hxs].
    apply negb_true_iff in Hx. rewrite hasRole_untyped, Hx.
    destruct (nullish x); [reflexivity|]. exact (IH Hxs).
Qed.

Lemma find_misses (name : string) (entries : list value) :
  forallb (fun e => negb (nullish e) && negb (roleIs name e)) entries = true ->
  Dyn.find (hasRole name) entries = Ok VUndefined.
Proof.
  intros H. rewrite <- (app_nil_r entries). rewrite (find_passes _ _ _ H).
  reflexivity.
Qed.

Lemma forallb_rev (A : Type) (p : A -> bool) (xs : list A) :
  forallb p (rev xs) = forallb p xs.
Proof.
  induction xs as [|x xs IH]; [reflexivity|].
  simpl. rewrite forallb_app, IH. simpl.
  rewrite andb_true_r. apply andb_comm.
Qed.

Lemma rev_middle (A : Type) (before after : list A) (x : A) :
  rev (before ++ x :: after) = rev after ++ x :: rev before.
Proof.
  rewrite rev_app_distr. simpl. rewrite <- app_assoc. reflexivity.
Qed.

Lemma malformed_spec (payload : value) :
  malformed payload
  = Ok (match messagesOf payload with Some _ => false | None => true end).
Proof.
  unfold malformed.
  destruct payload as [| |b|n|s|items|props]; cbn [truthy messagesOf negb];
    try reflexivity.
  - destruct b; reflexivity.
  - destruct (Z.eqb n 0); reflexivity.
  - destruct s; reflexivity.
  - cbn [getProp bind]. destruct (ownProp (js "messages") props); reflexivity.
Qed.

(** The handler on a payload that carries an array. *)
Lemma handle_entries (respond : value -> list value -> result ResponsePayload)
  (payload : value) (entries : list value) :
  messagesOf payload = Some entries ->
  handle respond (Ok payload)
  = (lastUserMessage <- Dyn.find (hasRole "user") (rev entries) ;;
     if negb (truthy lastUserMessage)
     then Ok {| status := 200; body := readyPayload |}
     else
       text <- getProp lastUserMessage (js "content") ;;
       answer <- respond text entries ;;
       Ok {| status := 200; body := answer |}).
Proof.
  intros H. unfold handle. cbn [bind]. rewrite malformed_spec, H. cbn [bind].
  destruct payload as [| | | | | |props]; try discriminate H.
  simpl in H. cbn [getProp bind].
  destruct (ownProp (js "messages") props); try discriminate H.
  injection H as ->. reflexivity.
Qed.

Lemma handle_malformed (respond : value -> list value -> result ResponsePayload)
  (payload : value) :
  messagesOf payload = None ->
  handle respond (Ok payload)
  = Ok {| status := 400; body := malformedPayload |}.
Proof.
  intros H. unfold handle. cbn [bind]. rewrite malformed_spec, H. reflexivity.
Qed.

Lemma buildResponse_not_string (clock : jsstring) (prompt : value)
  (history : list value) :
  (forall s, prompt <> VStr s) ->
  buildResponse clock prompt history = Throw TypeError.
Proof.
  intros H. destruct prompt; try reflexivity. elim (H s). reflexivity.
Qed.

End Untyped.

(** ** Properties of the dispatch chain *)

Ltac distinct_suggestions H :=
  apply (f_equal (fun r => match r with
                           | Ok p => suggestions p
                           | Throw _ => []
                           end)) in H;
  vm_compute in H; discriminate H.

Lemma buildResponse_expand_only (clock text : jsstring) (h : list ChatMessage) :
  buildResponse clock (VStr text) (map ofMessage h) = Ok expandPayload ->
  matchesKeyword (toLowerCase text) = false.
Proof.
  intros H. destruct (matchesKeyword (toLowerCase text)) eqn:Hk; [|reflexivity].
  exfalso. unfold buildResponse in H. cbn [asString bind] in H.
  rewrite summarize_typed in H. cbn [bind] in H.
  unfold matchesKeyword in Hk.
  repeat match type of H with
         | context [if ?b then _ else _] =>
           destruct b eqn:?; [distinct_suggestions H|]
         end.
  simpl in Hk. discriminate Hk.
Qed.

(** C7. Whenever the greeting pattern matches the lowered input, the
    responder answers with the fixed greeting reply and its three
    suggestions, whatever the history holds (typed or not) and whatever
    the clock shows. *)
Theorem greeting_reply_fixed (clock text : jsstring) (history : list value) :
  test greetingRe (toLowerCase text) = true ->
  buildResponse clock (VStr text) history = Ok greetingPayload
  /\ List.length (suggestions greetingPayload) = 3%nat.
Proof.
  intros H. unfold buildResponse. cbn [asString bind]. rewrite H.
  split; reflexivity.
Qed.

Lemma greeting_reply_fixed_witness :
  (buildResponse (js "9:41 AM") (VStr (js "hi")) [] = Ok greetingPayload
   /\ List.length (suggestions greetingPayload) = 3%nat)
  /\ (buildResponse [] (VStr (js "Hello")) [VNull; VNum 7] = Ok greetingPayload
      /\ List.length (suggestions greetingPayload) = 3%nat)
  /\ (buildResponse []
        (VStr (js "good morning"))
        (map ofMessage [ {| role := user; content := js "a" |};
                         {| role := assistant; content := js "b" |} ])
      = Ok greetingPayload
      /\ List.length (suggestions greetingPayload) = 3%nat).
Proof.
  split; [|split]; apply greeting_reply_fixed; vm_compute; reflexivity.
Defined.

(** C1, as the code has it.  The thanks test is the second of the chain:
    an input that matches a thanks pattern and not the greeting pattern
    gets the Thanks payload, whether or not it also matches the plan
    pattern, and that payload is never the Plan branch's. *)
Theorem thanks_before_plan (clock text : jsstring) (history : list value) :
  test greetingRe (toLowerCase text) = false ->
  test gratitudeRe (toLowerCase text) || test thanksRe (toLowerCase text) = true ->
  buildResponse clock (VStr text) history = Ok thanksPayload
  /\ thanksPayload <> planPayload text.
Proof.
  intros Hg Ht. unfold buildResponse. cbn [asString bind]. rewrite Hg, Ht.
  split; [reflexivity|].
  intros H. apply (f_equal suggestions) in H. vm_compute in H. discriminate H.
Qed.

Lemma thanks_before_plan_witness :
  test planRe (toLowerCase (js "thanks for the plan")) = true
  /\ buildResponse [] (VStr (js "thanks for the plan")) [] = Ok thanksPayload
  /\ thanksPayload <> planPayload (js "thanks for the plan").
Proof.
  split; [vm_compute; reflexivity|].
  apply thanks_before_plan; vm_compute; reflexivity.
Defined.

(** C1, as stated, fails: an input can match the thanks and the plan
    patterns and be answered by the Greeting branch, which is tested
    before both. *)
Lemma thanks_and_plan_answered_by_greeting :
  test gratitudeRe (toLowerCase (js "hi, thanks for the plan"))
  || test thanksRe (toLowerCase (js "hi, thanks for the plan")) = true
  /\ test planRe (toLowerCase (js "hi, thanks for the plan")) = true
  /\ buildResponse [] (VStr (js "hi, thanks for the plan")) [] = Ok greetingPayload
  /\ buildResponse [] (VStr (js "hi, thanks for the plan")) [] <> Ok thanksPayload.
Proof.
  conj; try (vm_compute; reflexivity).
  intros H. distinct_suggestions H.
Qed.

(** C8. An input that matches no keyword pattern and does not trigger
    the follow-up branch (no assistant turn, or no "expand") gets the
    fallback payload: the generic template around [sanitize text], with
    the default suggestions.  [sanitize text] is trimmed and
    single-spaced, keeps every code unit that is not white space, and
    sanitizing it again changes nothing. *)
Theorem fallback_echoes_sanitized (clock text : jsstring)
  (h : list ChatMessage) :
  matchesKeyword (toLowerCase text) = false ->
  existsb isAssistant h = false
  \/ includes (toLowerCase text) (js "expand") = false ->
  buildResponse clock (VStr text) (map ofMessage h) = Ok (fallbackPayload text)
  /\ reply (fallbackPayload text)
     = js "Here’s what I’m picking up: " ++ sanitize text
         ++ js ". I can help you clarify the goal, outline the steps, or find inspiration."
         ++ newline ++ newline
         ++ js "Let me know which direction sounds best and we’ll move forward."
  /\ suggestions (fallbackPayload text) = fallbackSuggestions
  /\ tidy (sanitize text) = true
  /\ ink (sanitize text) = ink text
  /\ sanitize (sanitize text) = sanitize text.
Proof.
  intros Hk Hx. conj.
  - rewrite (buildResponse_follow_up clock _ _ Hk).
    destruct Hx as [-> | ->]; [reflexivity|]. rewrite andb_false_r. reflexivity.
  - unfold fallbackPayload, reply, lines. cbn [join].
    rewrite <- !app_assoc. rewrite app_nil_l. reflexivity.
  - reflexivity.
  - apply sanitize_tidy.
  - apply sanitize_ink.
  - apply sanitize_involutive.
Qed.

Lemma fallback_echoes_sanitized_witness :
  buildResponse [] (VStr (js "  xyzzy   quux "))
    (map ofMessage [ {| role := user; content := js "  xyzzy   quux " |} ])
  = Ok (fallbackPayload (js "  xyzzy   quux "))
  /\ sanitize (js "  xyzzy   quux ") = js "xyzzy quux".
Proof.
  split; [|vm_compute; reflexivity].
  apply (fallback_echoes_sanitized []); [|left]; vm_compute; reflexivity.
Defined.

(** C9. On a typed history the responder answers with the fixed
    clarifying question exactly when no keyword pattern, greeting
    through summary, matches, the lowered input contains "expand" and
    the history holds an assistant turn.  It comes with three
    suggestions.  Without an assistant turn an input that matches no
    keyword pattern gets the fallback, "expand" or not. *)
Theorem expand_follow_up (clock text : jsstring) (h : list ChatMessage) :
  (buildResponse clock (VStr text) (map ofMessage h) = Ok expandPayload
   <-> matchesKeyword (toLowerCase text) = false
       /\ includes (toLowerCase text) (js "expand") = true
       /\ existsb isAssistant h = true)
  /\ List.length (suggestions expandPayload) = 3%nat
  /\ (matchesKeyword (toLowerCase text) = false ->
      existsb isAssistant h = false ->
      buildResponse clock (VStr text) (map ofMessage h)
      = Ok (fallbackPayload text)).
Proof.
  split; [split|split; [reflexivity|]].
  - intros H. pose proof (buildResponse_expand_only _ _ _ H) as Hk.
    split; [exact Hk|].
    rewrite (buildResponse_follow_up clock _ _ Hk) in H.
    destruct (existsb isAssistant h); [|distinct_suggestions H].
    destruct (includes (toLowerCase text) (js "expand"));
      [auto|distinct_suggestions H].
  - intros (Hk & Hx & Ha).
    rewrite (buildResponse_follow_up clock _ _ Hk), Hx, Ha. reflexivity.
  - intros Hk Ha.
    rewrite (buildResponse_follow_up clock _ _ Hk), Ha. reflexivity.
Qed.

Lemma expand_follow_up_witness :
  buildResponse [] (VStr (js "Expand on that"))
    (map ofMessage [ {| role := assistant; content := js "x" |};
                     {| role := user; content := js "Expand on that" |} ])
  = Ok expandPayload
  /\ buildResponse [] (VStr (js "Expand on that"))
       (map ofMessage [ {| role := user; content := js "Expand on that" |} ])
     = Ok (fallbackPayload (js "Expand on that")).
Proof.
  split.
  - apply (proj1 (expand_follow_up [] (js "Expand on that") _)).
    vm_compute. auto.
  - apply (proj2 (proj2 (expand_follow_up [] (js "Expand on that") _)));
      vm_compute; reflexivity.
Defined.

(** C4. On a string and a typed history the responder returns a
    payload: no branch throws.  Blank input (empty, or white space
    only) matches nothing and gets the fallback around the empty
    string, and so does every input that matches no keyword pattern and
    does not trigger the follow-up branch. *)
Theorem responder_total (clock text : jsstring) (h : list ChatMessage) :
  (exists answer,
      buildResponse clock (VStr text) (map ofMessage h) = Ok answer)
  /\ (forallb isWhiteSpace text = true ->
      buildResponse clock (VStr text) (map ofMessage h)
      = Ok (fallbackPayload text)
      /\ sanitize text = [])
  /\ (matchesKeyword (toLowerCase text) = false ->
      existsb isAssistant h && includes (toLowerCase text) (js "expand") = false ->
      buildResponse clock (VStr text) (map ofMessage h)
      = Ok (fallbackPayload text)).
Proof.
  split; [apply buildResponse_returns|split].
  - intros Hb. split; [|apply sanitize_blank, Hb].
    rewrite buildResponse_follow_up;
      rewrite (toLowerCase_blank _ Hb);
      [|apply matchesKeyword_blank, Hb].
    rewrite (includes_blank _ Hb), andb_false_r. reflexivity.
  - intros Hk Hx. rewrite (buildResponse_follow_up clock _ _ Hk), Hx.
    reflexivity.
Qed.

Lemma responder_total_witness :
  (buildResponse [] (VStr [])
     (map ofMessage [ {| role := assistant; content := js "hello" |} ])
   = Ok (fallbackPayload [])
   /\ sanitize [] = [])
  /\ (buildResponse [] (VStr (js "   ")) (map ofMessage [])
      = Ok (fallbackPayload (js "   "))
      /\ sanitize (js "   ") = []).
Proof.
  split.
  - apply (proj1 (proj2 (responder_total [] [] _))). reflexivity.
  - apply (proj1 (proj2 (responder_total [] (js "   ") _))).
    vm_compute. reflexivity.
Defined.

(** ** Focus extraction and the summarizer *)

(** C2.  The Plan branch does what the claim says for every prompt:
    it strips the occurrences of its keywords (the one outcome of
    [Stripped]), and what it returns is trimmed and single-spaced, so
    that sanitizing it again changes nothing; the Plan focus of
    "  plan   my    trip " is "my trip".  The Idea branch does not.
    On the page's own prompt "Give me three creative marketing ideas."
    the dispatch reaches the Idea branch and the focus keeps the "s"
    of "ideas", because [idea] stands in front of [ideas?] in the
    pattern; on "brainstorm  my    trip" the focus keeps the runs of
    white space, because the branch trims and never collapses. *)
Theorem focus_extraction_slip :
  (forall prompt,
      (exists stripped,
          (forall out, Stripped planWords prompt out <-> out = stripped)
          /\ planFocus prompt = sanitize stripped)
      /\ tidy (planFocus prompt) = true
      /\ sanitize (planFocus prompt) = planFocus prompt)
  /\ planFocus (js "  plan   my    trip ") = js "my trip"
  /\ buildResponse [] (VStr (js "Give me three creative marketing ideas.")) []
     = Ok (ideasPayload (js "Give me three creative marketing ideas."))
  /\ ideasFocus (js "Give me three creative marketing ideas.")
     = js "Give me three creative marketing s."
  /\ buildResponse [] (VStr (js "brainstorm  my    trip")) []
     = Ok (ideasPayload (js "brainstorm  my    trip"))
  /\ ideasFocus (js "brainstorm  my    trip") = js "my    trip"
  /\ tidy (ideasFocus (js "brainstorm  my    trip")) = false.
Proof.
  split; [|conj; vm_compute; reflexivity].
  intros prompt. conj.
  - exists (replaceAll true planStrip [] prompt).
    split; [intros out; apply planStrip_spec|reflexivity].
  - apply sanitize_tidy.
  - apply sanitize_involutive.
Qed.

(** Closes an equation whose two sides are the same term. *)
Ltac same :=
  unfold jsstring; match goal with |- ?x = ?x => reflexivity end.

Section SummaryText.

Lemma lastN_three (A : Type) (older : list A) (a b c : A) :
  lastN 3 (older ++ [a; b; c]) = [a; b; c].
Proof. unfold lastN. rewrite rev_app_distr. reflexivity. Qed.

Lemma numberedLine_first (m : ChatMessage) :
  numberedLine 0 m = js "1. " ++ sanitize (content m).
Proof.
  unfold numberedLine. rewrite app_assoc.
  assert (E : numberToString (0 + 1) ++ js ". " = js "1. ")
    by (vm_compute; reflexivity).
  rewrite E. reflexivity.
Qed.

Lemma numberedLine_second (m : ChatMessage) :
  numberedLine 1 m = js "2. " ++ sanitize (content m).
Proof.
  unfold numberedLine. rewrite app_assoc.
  assert (E : numberToString (1 + 1) ++ js ". " = js "2. ")
    by (vm_compute; reflexivity).
  rewrite E. reflexivity.
Qed.

Lemma numberedLine_third (m : ChatMessage) :
  numberedLine 2 m = js "3. " ++ sanitize (content m).
Proof.
  unfold numberedLine. rewrite app_assoc.
  assert (E : numberToString (2 + 1) ++ js ". " = js "3. ")
    by (vm_compute; reflexivity).
  rewrite E. reflexivity.
Qed.

Lemma summarize_recent_typed (h : list ChatMessage) (recent : list ChatMessage) :
  recentUsers h = recent ->
  summarizeConversation (map ofMessage h)
  = Ok (match numbered 0 recent with
        | [] => exploringMessage
        | l :: ls => trackingMessage (l :: ls)
        end).
Proof. intros <-. apply summarize_typed. Qed.

End SummaryText.

(** C3. On every typed history the summarizer returns the fixed
    "exploring" message when there is no user turn, and otherwise the
    fixed first line, one line for each of the last three user turns
    (fewer if there are fewer), oldest first, made of its number from
    1 on, a dot, a space and the sanitized text, an empty line and the
    fixed closing line.  For user a, assistant x, user b, user c,
    user d the lines are 1. b, 2. c, 3. d. *)
Theorem summarizer_recent_users (h : list ChatMessage) :
  (List.filter isUser h = [] ->
   summarizeConversation (map ofMessage h)
   = Ok (js "You’ve mostly been exploring the assistant’s features so far."))
  /\ (forall a,
         List.filter isUser h = [a] ->
         summarizeConversation (map ofMessage h)
         = Ok (js "Here’s what I’m tracking:" ++ newline
                 ++ (js "1. " ++ sanitize (content a))
                 ++ newline ++ newline
                 ++ js "Ready whenever you are for a deeper dive."))
  /\ (forall a b,
         List.filter isUser h = [a; b] ->
         summarizeConversation (map ofMessage h)
         = Ok (js "Here’s what I’m tracking:" ++ newline
                 ++ ((js "1. " ++ sanitize (content a)) ++ newline
                     ++ (js "2. " ++ sanitize (content b)))
                 ++ newline ++ newline
                 ++ js "Ready whenever you are for a deeper dive."))
  /\ (forall older a b c,
         List.filter isUser h = older ++ [a; b; c] ->
         summarizeConversation (map ofMessage h)
         = Ok (js "Here’s what I’m tracking:" ++ newline
                 ++ ((js "1. " ++ sanitize (content a)) ++ newline
                     ++ (js "2. " ++ sanitize (content b)) ++ newline
                     ++ (js "3. " ++ sanitize (content c)))
                 ++ newline ++ newline
                 ++ js "Ready whenever you are for a deeper dive."))
  /\ (List.filter isUser h <> [] ->
      summarizeConversation (map ofMessage h)
      = Ok (js "Here’s what I’m tracking:" ++ newline
              ++ join newline (numbered 0 (recentUsers h))
              ++ newline ++ newline
              ++ js "Ready whenever you are for a deeper dive."))
  /\ (exists older, List.filter isUser h = older ++ recentUsers h)
  /\ List.length (recentUsers h) = Nat.min 3 (List.length (List.filter isUser h))
  /\ (forall i m,
         nth_error (recentUsers h) i = Some m ->
         nth_error (numbered 0 (recentUsers h)) i
         = Some (numberToString (i + 1) ++ js ". " ++ sanitize (content m)))
  /\ summarizeConversation
       (map ofMessage
          [ {| role := user; content := js "a" |};
            {| role := assistant; content := js "x" |};
            {| role := user; content := js "b" |};
            {| role := user; content := js "c" |};
            {| role := user; content := js "d" |} ])
     = Ok (js "Here’s what I’m tracking:" ++ newline
             ++ (js "1. b" ++ newline ++ js "2. c" ++ newline ++ js "3. d")
             ++ newline ++ newline
             ++ js "Ready whenever you are for a deeper dive.").
Proof.
  destruct (lastN_suffix _ 3 (List.filter isUser h)) as (older & Holder & Hlen).
  fold (recentUsers h) in Holder, Hlen.
  conj.
  - intros Hnone. rewrite summarize_typed. unfold recentUsers.
    rewrite Hnone. reflexivity.
  - intros a Ha.
    rewrite (summarize_recent_typed h [a]);
      [|unfold recentUsers; rewrite Ha; reflexivity].
    cbn [numbered]. rewrite numberedLine_first.
    unfold trackingMessage. cbn [join]. same.
  - intros a b Hab.
    rewrite (summarize_recent_typed h [a; b]);
      [|unfold recentUsers; rewrite Hab; reflexivity].
    cbn [numbered]. rewrite numberedLine_first, numberedLine_second.
    unfold trackingMessage. cbn [join]. same.
  - intros older' a b c Habc.
    rewrite (summarize_recent_typed h [a; b; c]);
      [|unfold recentUsers; rewrite Habc; apply lastN_three].
    cbn [numbered].
    rewrite numberedLine_first, numberedLine_second, numberedLine_third.
    unfold trackingMessage. cbn [join]. same.
  - intros Hsome. rewrite summarize_typed.
    destruct (recentUsers h) as [|m ms] eqn:Hrecent; [|reflexivity].
    exfalso. apply Hsome.
    destruct (List.filter isUser h); [reflexivity|].
    simpl in Hlen. discriminate Hlen.
  - exists older. exact Holder.
  - exact Hlen.
  - intros i m Hi. exact (numbered_nth _ 0 i m Hi).
  - vm_compute. reflexivity.
Qed.

Lemma summarizer_recent_users_witness :
  summarizeConversation
    (map ofMessage
       [ {| role := user; content := js " first  turn " |};
         {| role := assistant; content := js "x" |} ])
  = Ok (js "Here’s what I’m tracking:" ++ newline
          ++ (js "1. " ++ sanitize (js " first  turn "))
          ++ newline ++ newline
          ++ js "Ready whenever you are for a deeper dive.")
  /\ summarizeConversation
       (map ofMessage [ {| role := assistant; content := js "x" |} ])
     = Ok (js "You’ve mostly been exploring the assistant’s features so far.").
Proof.
  split.
  - exact (proj1 (proj2 (summarizer_recent_users
                           [ {| role := user; content := js " first  turn " |};
                             {| role := assistant; content := js "x" |} ]))
             {| role := user; content := js " first  turn " |} eq_refl).
  - apply (proj1 (summarizer_recent_users _)). reflexivity.
Defined.


(** ** The endpoint *)

Section EndpointFacts.

Lemma lastUser_found (before after : list ChatMessage) (m : ChatMessage) :
  isUser m = true -> existsb isUser after = false ->
  List.find isUser (rev (before ++ m :: after)) = Some m.
Proof.
  intros Hm Hafter. rewrite rev_middle, find_append.
  pose proof (find_rev_exists isUser after) as H. rewrite Hafter in H.
  destruct (List.find isUser (rev after)); [discriminate H|].
  simpl. rewrite Hm. reflexivity.
Qed.


Lemma serve_status (respond : value -> list value -> result ResponsePayload)
  (payload : value) (entries : list value) :
  messagesOf payload = Some entries ->
  (status (fst (serve respond (Ok payload))) = 200%nat
   /\ snd (serve respond (Ok payload)) = [])
  \/ serve respond (Ok payload)
     = ({| status := 500; body := failurePayload |}, [js "Chat route error"]).
Proof.
  intros H. unfold serve. rewrite (handle_entries respond _ _ H).
  destruct (Dyn.find (hasRole "user") (rev entries)) as [found|];
    cbn [bind]; [|right; reflexivity].
  destruct (negb (truthy found)); [left; split; reflexivity|].
  destruct (getProp found (js "content")) as [text|];
    cbn [bind]; [|right; reflexivity].
  destruct (respond text entries); cbn [bind];
    [left; split; reflexivity|right; reflexivity].
Qed.

End EndpointFacts.

(** C5. A payload that is not an object carrying an array under
    [messages] (no such property, a property of another type, or no
    object at all) is answered with status 400, the fixed
    malformed-request reply and the default suggestions, whatever the
    responder is: the responder is not consulted.  Nothing is logged. *)
Theorem endpoint_rejects_malformed
  (respond : value -> list value -> result ResponsePayload)
  (clock : jsstring) (payload : value) :
  messagesOf payload = None ->
  serve respond (Ok payload)
  = ({| status := 400; body := malformedPayload |}, [])
  /\ POST clock (Ok payload)
     = ({| status := 400; body := malformedPayload |}, [])
  /\ suggestions malformedPayload = fallbackSuggestions.
Proof.
  intros H. unfold POST, serve. rewrite !(handle_malformed _ _ H).
  conj; reflexivity.
Qed.

Lemma endpoint_rejects_malformed_witness :
  serve (fun _ _ => Throw TypeError)
    (Ok (VObj [(js "messages", VStr (js "not-an-array"))]))
  = ({| status := 400; body := malformedPayload |}, [])
  /\ POST [] (Ok (VObj [(js "messages", VStr (js "not-an-array"))]))
     = ({| status := 400; body := malformedPayload |}, [])
  /\ suggestions malformedPayload = fallbackSuggestions.
Proof. apply endpoint_rejects_malformed. reflexivity. Defined.




(** C10, as the code has it.  A payload that carries an array under
    [messages] is never answered with 400: the answer is 200, or 500
    with the fixed failure reply and a logged error.  Read from the
    end: if no entry is nullish and none has role user, the answer is
    200 with the "ready when you are" reply; if the last entry with
    role user has no nullish entry behind it, the responder gets the
    value of its [content] and the whole array, and the answer is 200
    with the responder's payload, or 500 when the responder throws, as
    it does on a [content] that is not a string; if a nullish entry has
    no entry with role user behind it, the answer is 500. *)
Theorem endpoint_array_outcomes (clock : jsstring) (payload : value)
  (entries : list value) :
  messagesOf payload = Some entries ->
  status (fst (POST clock (Ok payload))) <> 400%nat
  /\ ((status (fst (POST clock (Ok payload))) = 200%nat
       /\ snd (POST clock (Ok payload)) = [])
      \/ POST clock (Ok payload)
         = ({| status := 500; body := failurePayload |},
            [js "Chat route error"]))
  /\ (forallb (fun e => negb (nullish e) && negb (roleIs "user" e)) entries = true ->
      POST clock (Ok payload) = ({| status := 200; body := readyPayload |}, []))
  /\ (forall before props after,
         entries = before ++ VObj props :: after ->
         roleIs "user" (VObj props) = true ->
         forallb (fun e => negb (nullish e) && negb (roleIs "user" e)) after = true ->
         POST clock (Ok payload)
         = match buildResponse clock (ownProp (js "content") props) entries with
           | Ok answer => ({| status := 200; body := answer |}, [])
           | Throw _ =>
             ({| status := 500; body := failurePayload |},
              [js "Chat route error"])
           end)
  /\ (forall prompt, (forall s, prompt <> VStr s) ->
                     buildResponse clock prompt entries = Throw TypeError)
  /\ (forall before e after,
         entries = before ++ e :: after ->
         nullish e = true ->
         forallb (fun x => negb (roleIs "user" x)) after = true ->
         POST clock (Ok payload)
         = ({| status := 500; body := failurePayload |},
            [js "Chat route error"])).
Proof.
  intros Hm.
  pose proof (serve_status (buildResponse clock) _ _ Hm) as Hstatus.
  fold (POST clock (Ok payload)) in Hstatus.
  split; [|split; [exact Hstatus|conj]].
  - destruct Hstatus as [[H _]|H]; rewrite H; simpl; discriminate.
  - intros Hnone. unfold POST, serve.
    rewrite (handle_entries _ _ _ Hm), find_misses; [reflexivity|].
    rewrite forallb_rev. exact Hnone.
  - intros before props after Hentries Hrole Hafter. unfold POST, serve.
    rewrite (handle_entries _ _ _ Hm). rewrite Hentries at 1.
    rewrite rev_middle, find_passes, (find_hits _ _ _ Hrole);
      [|rewrite forallb_rev; exact Hafter].
    cbn [bind truthy negb getProp].
    destruct (buildResponse clock (ownProp (js "content") props) entries);
      reflexivity.
  - intros prompt. apply buildResponse_not_string.
  - intros before e after Hentries He Hafter. unfold POST, serve.
    rewrite (handle_entries _ _ _ Hm). rewrite Hentries.
    rewrite rev_middle, find_throws; [reflexivity| |exact He].
    rewrite forallb_rev. exact Hafter.
Qed.

Lemma endpoint_array_outcomes_witness :
  POST [] (Ok (VObj [(js "messages", VArr [VNum 1; VStr (js "user"); VArr []])]))
  = ({| status := 200; body := readyPayload |}, [])
  /\ POST []
       (Ok (VObj [(js "messages",
                   VArr [ VNull;
                          VObj [(js "role", VStr (js "user"));
                                (js "content", VStr (js "tell me a joke"))];
                          VBool true ])]))
     = ({| status := 200; body := jokePayload |}, [])
  /\ POST []
       (Ok (VObj [(js "messages",
                   VArr [ VObj [(js "role", VStr (js "user"));
                                (js "content", VStr (js "hi"))];
                          VNull; VNum 3 ])]))
     = ({| status := 500; body := failurePayload |}, [js "Chat route error"]).
Proof.
  split; [|split].
  - apply (proj1 (proj2 (proj2
             (endpoint_array_outcomes []
                (VObj [(js "messages", VArr [VNum 1; VStr (js "user"); VArr []])])
                [VNum 1; VStr (js "user"); VArr []] eq_refl)))).
    reflexivity.
  - exact (proj1 (proj2 (proj2 (proj2
             (endpoint_array_outcomes []
                (VObj [(js "messages",
                        VArr [ VNull;
                               VObj [(js "role", VStr (js "user"));
                                     (js "content", VStr (js "tell me a joke"))];
                               VBool true ])])
                [ VNull;
                  VObj [(js "role", VStr (js "user"));
                        (js "content", VStr (js "tell me a joke"))];
                  VBool true ] eq_refl))))
             [VNull]
             [(js "role", VStr (js "user"));
              (js "content", VStr (js "tell me a joke"))]
             [VBool true] eq_refl eq_refl eq_refl).
  - exact (proj2 (proj2 (proj2 (proj2 (proj2
             (endpoint_array_outcomes []
                (VObj [(js "messages",
                        VArr [ VObj [(js "role", VStr (js "user"));
                                     (js "content", VStr (js "hi"))];
                               VNull; VNum 3 ])])
                [ VObj [(js "role", VStr (js "user"));
                        (js "content", VStr (js "hi"))];
                  VNull; VNum 3 ] eq_refl)))))
             [ VObj [(js "role", VStr (js "user"));
                     (js "content", VStr (js "hi"))] ]
             VNull [VNum 3] eq_refl eq_refl eq_refl).
Defined.

(** C10, as stated, fails: an array holding [null], and an array whose
    last user entry has no [content], are answered with 500. *)
Lemma endpoint_array_counterexample :
  POST [] (Ok (VObj [(js "messages", VArr [VNull])]))
  = ({| status := 500; body := failurePayload |}, [js "Chat route error"])
  /\ POST []
       (Ok (VObj [(js "messages",
                   VArr [VObj [(js "role", VStr (js "user"))]])]))
     = ({| status := 500; body := failurePayload |}, [js "Chat route error"]).
Proof. split; vm_compute; reflexivity. Qed.

(** ** [sanitize] word by word *)

Section Words.

Lemma trimStart_app (a b : jsstring) :
  trimStart (a ++ b)
  = if forallb isWhiteSpace a then trimStart b else trimStart a ++ b.
Proof.
  induction a as [|c a IH]; [reflexivity|]. simpl.
  destruct (isWhiteSpace c); [exact IH|reflexivity].
Qed.

Lemma trimEnd_blank (s : jsstring) :
  forallb isWhiteSpace s = true -> trimEnd s = [].
Proof.
  intros H. unfold trimEnd. rewrite trimStart_blank; [reflexivity|].
  rewrite forallb_rev. exact H.
Qed.

Lemma trimEnd_unfold (c : N) (t : jsstring) :
  trimEnd (c :: t)
  = if forallb isWhiteSpace t
    then if isWhiteSpace c then [] else [c]
    else c :: trimEnd t.
Proof.
  unfold trimEnd. simpl rev. rewrite trimStart_app, forallb_rev.
  destruct (forallb isWhiteSpace t).
  - simpl. destruct (isWhiteSpace c); reflexivity.
  - rewrite rev_app_distr. reflexivity.
Qed.

Lemma words_blank (s : jsstring) :
  forallb isWhiteSpace s = true -> words s = [].
Proof.
  induction s as [|c t IH]; [reflexivity|]. simpl.
  intros H. apply andb_prop in H as [-> Ht]. exact (IH Ht).
Qed.

Lemma words_trimStart (s : jsstring) : words (trimStart s) = words s.
Proof.
  induction s as [|c t IH]; [reflexivity|]. simpl.
  destruct (isWhiteSpace c) eqn:Hc; [exact IH|]. simpl. rewrite Hc.
  reflexivity.
Qed.

Lemma trimEnd_start (t : jsstring) :
  forallb isWhiteSpace t = false ->
  startsWithSpace (trimEnd t) = startsWithSpace t.
Proof.
  destruct t as [|d t']; [discriminate|]. intros Ht.
  rewrite trimEnd_unfold. simpl in Ht.
  destruct (forallb isWhiteSpace t'); [|reflexivity].
  rewrite andb_true_r in Ht. rewrite Ht. simpl. rewrite Ht. reflexivity.
Qed.

Lemma words_trimEnd (s : jsstring) : words (trimEnd s) = words s.
Proof.
  induction s as [|c t IH]; [reflexivity|].
  rewrite trimEnd_unfold. destruct (forallb isWhiteSpace t) eqn:Ht.
  - destruct (isWhiteSpace c) eqn:Hc; simpl; rewrite Hc, (words_blank _ Ht).
    + reflexivity.
    + destruct (startsWithSpace t); reflexivity.
  - cbn [words]. rewrite IH, (trimEnd_start _ Ht). reflexivity.
Qed.

Lemma words_trim (s : jsstring) : words (trim s) = words s.
Proof. unfold trim. rewrite words_trimEnd. apply words_trimStart. Qed.

Lemma words_start (c : N) (t : jsstring) :
  isWhiteSpace c = false -> words (c :: t) <> [].
Proof.
  intros Hc. simpl. rewrite Hc.
  destruct (startsWithSpace t); [discriminate|].
  destruct (words t); discriminate.
Qed.

Lemma words_end (s : jsstring) :
  endsWithSpace s = false -> s <> [] -> words s <> [].
Proof.
  induction s as [|c t IH]; intros He Hne; [contradiction|].
  destruct (isWhiteSpace c) eqn:Hc; [|apply words_start, Hc].
  simpl. rewrite Hc. destruct t as [|d t']; [simpl in He; congruence|].
  apply IH; [exact He|discriminate].
Qed.

Lemma join_consHead (sep : jsstring) (c : N) (ws : list jsstring) :
  ws <> [] -> join sep (consHead c ws) = c :: join sep ws.
Proof.
  destruct ws as [|w rest]; [contradiction|]. intros _.
  destruct rest; reflexivity.
Qed.

Lemma join_cons (sep w : jsstring) (ws : list jsstring) :
  ws <> [] -> join sep (w :: ws) = w ++ sep ++ join sep ws.
Proof. destruct ws; [contradiction|reflexivity]. Qed.

(** Where the text does not end in white space, [squeeze] writes the
    words with one space between them, and in front when the text
    begins with white space and no run is under way. *)
Lemma squeeze_words (s : jsstring) :
  endsWithSpace s = false ->
  squeeze true s = join (js " ") (words s)
  /\ squeeze false s
     = if startsWithSpace s
       then 32 :: join (js " ") (words s)
       else join (js " ") (words s).
Proof.
  induction s as [|c t IH]; intros He; [split; reflexivity|].
  pose proof (endsWithSpace_tail _ _ He) as Het.
  destruct (IH Het) as [IHt IHf].
  cbn [squeeze words startsWithSpace].
  destruct (isWhiteSpace c) eqn:Hc.
  - rewrite IHt. split; reflexivity.
  - assert (Hgoal : c :: squeeze false t
                    = join (js " ")
                        (if startsWithSpace t then [c] :: words t
                         else consHead c (words t))).
    { rewrite IHf. destruct t as [|d t'].
      - reflexivity.
      - cbn [startsWithSpace]. destruct (isWhiteSpace d) eqn:Hd.
        + rewrite join_cons; [reflexivity|].
          apply words_end; [exact Het|discriminate].
        + rewrite join_consHead; [reflexivity|]. apply words_start, Hd. }
    split; exact Hgoal.
Qed.

Lemma sanitize_join_words (s : jsstring) :
  sanitize s = join (js " ") (words s).
Proof.
  rewrite sanitize_squeeze. destruct (trim_clean s) as [Hs He].
  rewrite (proj2 (squeeze_words _ He)), Hs. rewrite words_trim. reflexivity.
Qed.

Lemma consHead_clean (c : N) (ws : list jsstring) :
  isWhiteSpace c = false ->
  Forall (fun w => w <> [] /\ forallb isWhiteSpace w = false
                   /\ ink w = w) ws ->
  Forall (fun w => w <> [] /\ forallb isWhiteSpace w = false
                   /\ ink w = w) (consHead c ws).
Proof.
  intros Hc H. destruct H as [|w rest (Hne & Hb & Hink) Hrest]; simpl.
  - constructor; [|constructor]. unfold ink. simpl. rewrite Hc. simpl.
    repeat split; discriminate || reflexivity.
  - constructor; [|exact Hrest]. unfold ink in *. simpl. rewrite Hc. simpl.
    rewrite Hink. repeat split; discriminate || reflexivity.
Qed.

Lemma words_clean (s : jsstring) :
  Forall (fun w => w <> [] /\ forallb isWhiteSpace w = false /\ ink w = w)
         (words s).
Proof.
  induction s as [|c t IH]; [constructor|]. simpl.
  destruct (isWhiteSpace c) eqn:Hc; [exact IH|].
  destruct (startsWithSpace t); [|apply consHead_clean; assumption].
  constructor; [|exact IH]. unfold ink. simpl. rewrite Hc. simpl.
  repeat split; discriminate || reflexivity.
Qed.

Lemma concat_consHead (c : N) (ws : list jsstring) :
  List.concat (consHead c ws) = c :: List.concat ws.
Proof. destruct ws; reflexivity. Qed.

Lemma words_concat (s : jsstring) : List.concat (words s) = ink s.
Proof.
  unfold ink. induction s as [|c t IH]; [reflexivity|]. simpl.
  destruct (isWhiteSpace c); simpl; [exact IH|].
  destruct (startsWithSpace t); [simpl|rewrite concat_consHead];
    rewrite IH; reflexivity.
Qed.

Lemma ink_nil (s : jsstring) :
  ink s = [] <-> forallb isWhiteSpace s = true.
Proof.
  unfold ink. induction s as [|c t IH]; [split; reflexivity|]. simpl.
  destruct (isWhiteSpace c); simpl; [exact IH|].
  split; discriminate.
Qed.

Lemma sanitize_nil (s : jsstring) :
  sanitize s = [] <-> forallb isWhiteSpace s = true.
Proof.
  split; [|apply sanitize_blank].
  intros H. apply ink_nil. rewrite <- sanitize_ink, H. reflexivity.
Qed.

Lemma trim_nil (s : jsstring) :
  trim s = [] <-> forallb isWhiteSpace s = true.
Proof.
  split.
  - intros H. apply ink_nil. rewrite <- ink_trim, H. reflexivity.
  - intros H. unfold trim. rewrite (trimStart_blank _ H). reflexivity.
Qed.

End Words.

(** ** What the responder returns *)

Section PayloadShape.

Lemma app_nonempty (a b : jsstring) : a <> [] -> a ++ b <> [].
Proof. destruct a; [contradiction|discriminate]. Qed.

Lemma join_nonempty (sep first : jsstring) (rest : list jsstring) :
  first <> [] -> join sep (first :: rest) <> [].
Proof.
  intros H. destruct rest; [exact H|]. cbn [join]. apply app_nonempty, H.
Qed.

Lemma buildPlanResponse_nonempty (prompt : jsstring) :
  buildPlanResponse prompt <> [].
Proof.
  unfold buildPlanResponse, lines. apply join_nonempty, app_nonempty.
  vm_compute. discriminate.
Qed.

Lemma buildIdeasResponse_nonempty (prompt : jsstring) :
  buildIdeasResponse prompt <> [].
Proof.
  unfold buildIdeasResponse, lines. apply join_nonempty.
  destruct (ideasFocus prompt); [|apply app_nonempty];
    vm_compute; discriminate.
Qed.

Lemma summarize_nonempty (history : list value) (summary : jsstring) :
  summarizeConversation history = Ok summary -> summary <> [].
Proof.
  unfold summarizeConversation.
  destruct (Dyn.filter (hasRole "user") history) as [users|]; [|discriminate].
  cbn [bind].
  destruct (mapi summaryLine 0 (sliceLast 3 users)) as [important|];
    [|discriminate].
  cbn [bind]. destruct important; intros [= <-].
  - vm_compute. discriminate.
  - unfold trackingMessage. apply app_nonempty. vm_compute. discriminate.
Qed.

Lemma suggestions_three (answer : ResponsePayload) :
  reply answer <> [] ->
  (List.length (suggestions answer) =? 3)%nat
  && forallb (fun s => negb (JS.eqb s [])) (suggestions answer) = true ->
  wellFormed answer.
Proof.
  intros Hr H. apply andb_prop in H as [Hlen Hall].
  split; [exact Hr|]. split; [left; apply Nat.eqb_eq, Hlen|].
  apply Forall_forall. intros s Hs Hnil. subst s.
  rewrite forallb_forall in Hall. specialize (Hall [] Hs). discriminate Hall.
Qed.

Lemma fallbackPayload_wellFormed (text : jsstring) :
  wellFormed (fallbackPayload text).
Proof.
  split; [|split; [right; reflexivity|]].
  - unfold fallbackPayload, reply, lines.
    apply join_nonempty, app_nonempty. vm_compute. discriminate.
  - apply Forall_forall. intros s Hs Hnil. subst s.
    vm_compute in Hs. intuition discriminate.
Qed.

Ltac three_suggestions :=
  apply suggestions_three; [|vm_compute; reflexivity].

(** Whatever the responder returns has a reply that is not empty and
    three suggestions, or the four default ones, none of them empty. *)
Lemma buildResponse_wellFormed (clock : jsstring) (prompt : value)
  (history : list value) (answer : ResponsePayload) :
  buildResponse clock prompt history = Ok answer -> wellFormed answer.
Proof.
  destruct prompt as [| | | |text| |]; try discriminate.
  unfold buildResponse. cbn [asString bind].
  repeat (match goal with
          | |- context [if ?b then _ else _] => destruct b
          end;
          [intros [= <-]; three_suggestions;
           match goal with
           | |- reply (planPayload _) <> [] =>
             exact (buildPlanResponse_nonempty _)
           | |- reply (ideasPayload _) <> [] =>
             exact (buildIdeasResponse_nonempty _)
           | |- reply (timePayload _) <> [] =>
             unfold timePayload, reply; apply app_nonempty;
             vm_compute; discriminate
           | |- _ => vm_compute; discriminate
           end|]).
  destruct (test summaryRe (toLowerCase text)).
  - destruct (summarizeConversation history) as [summary|] eqn:Hs;
      [|discriminate].
    cbn [bind]. intros [= <-]. three_suggestions.
    exact (summarize_nonempty _ _ Hs).
  - destruct (Dyn.find (hasRole "assistant") (rev history)) as [found|];
      [|discriminate].
    cbn [bind]. destruct (truthy found && _); intros [= <-];
      [three_suggestions; vm_compute; discriminate
      |apply fallbackPayload_wellFormed].
Qed.

End PayloadShape.

(** ** The summarizer on untyped entries *)

Section UntypedSummary.

Lemma roleIs_object (name : string) (e : value) :
  roleIs name e = true -> nullish e = false.
Proof. destruct e; try discriminate; reflexivity. Qed.

Lemma filter_untyped (name : string) (entries : list value) :
  forallb (fun e => negb (nullish e)) entries = true ->
  Dyn.filter (hasRole name) entries = Ok (List.filter (roleIs name) entries).
Proof.
  induction entries as [|e es IH]; [reflexivity|]. simpl.
  intros H. apply andb_prop in H as [He Hes]. apply negb_true_iff in He.
  rewrite hasRole_untyped, He, (IH Hes). cbn [bind].
  destruct (roleIs name e); reflexivity.
Qed.

Lemma filter_nullish (name : string) (entries : list value) :
  existsb nullish entries = true ->
  Dyn.filter (hasRole name) entries = Throw TypeError.
Proof.
  induction entries as [|e es IH]; [discriminate|]. simpl.
  rewrite hasRole_untyped. destruct (nullish e); [reflexivity|].
  simpl. intros H. rewrite (IH H). reflexivity.
Qed.

Lemma filter_kept (name : string) (entries : list value) :
  forallb (roleIs name) entries = true ->
  Dyn.filter (hasRole name) entries = Ok entries.
Proof.
  induction entries as [|e es IH]; [reflexivity|]. simpl.
  intros H. apply andb_prop in H as [He Hes].
  rewrite hasRole_untyped, (roleIs_object _ _ He), He, (IH Hes). reflexivity.
Qed.

Lemma forallb_skipn (A : Type) (p : A -> bool) (n : nat) (xs : list A) :
  forallb p xs = true -> forallb p (skipn n xs) = true.
Proof.
  intros H. rewrite <- (firstn_skipn n xs) in H.
  rewrite forallb_app in H. apply andb_prop in H. apply H.
Qed.

Lemma sliceLast_short (A : Type) (n : nat) (xs : list A) :
  (List.length xs <= n)%nat -> sliceLast n xs = xs.
Proof.
  intros H. unfold sliceLast.
  replace (List.length xs - n)%nat with 0%nat by lia. reflexivity.
Qed.

Lemma sliceLast_length (A : Type) (n : nat) (xs : list A) :
  (List.length (sliceLast n xs) <= n)%nat.
Proof. unfold sliceLast. rewrite length_skipn. lia. Qed.

Lemma userEntries_all (entries : list value) :
  forallb (roleIs "user") (userEntries entries) = true.
Proof.
  unfold userEntries. apply forallb_forall. intros e He.
  apply filter_In in He. apply He.
Qed.

Lemma summaryLine_object (e : value) (index : nat) :
  nullish e = false ->
  (hasText e = true -> exists line, summaryLine e index = Ok line)
  /\ (hasText e = false -> summaryLine e index = Throw TypeError).
Proof.
  intros Hn. unfold summaryLine.
  destruct e as [| |b|n|s|items|props]; try discriminate Hn;
    cbn [getProp bind hasText asString];
    try (split; [discriminate|reflexivity]).
  destruct (ownProp (js "content") props);
    cbn [asString bind];
    try (split; [discriminate|reflexivity]).
  split; [eauto|discriminate].
Qed.

Lemma mapi_objects (turns : list value) :
  forallb (fun e => negb (nullish e)) turns = true ->
  forall index,
    (forallb hasText turns = true ->
     exists ls, mapi summaryLine index turns = Ok ls
                /\ List.length ls = List.length turns)
    /\ (forallb hasText turns = false ->
        mapi summaryLine index turns = Throw TypeError).
Proof.
  induction turns as [|e es IH]; intros Hn index.
  - split; [exists []; split; reflexivity|discriminate].
  - simpl in Hn. apply andb_prop in Hn as [He Hes].
    apply negb_true_iff in He.
    destruct (summaryLine_object e index He) as [Hok Hbad].
    destruct (IH Hes (S index)) as [IHok IHbad].
    cbn [mapi forallb]. destruct (hasText e).
    + destruct (Hok eq_refl) as [line ->]. cbn [bind]. split.
      * intros Hall. destruct (IHok Hall) as (ls & -> & Hlen).
        exists (line :: ls). split; [reflexivity|]. simpl. rewrite Hlen.
        reflexivity.
      * intros Hsome. rewrite (IHbad Hsome). reflexivity.
    + rewrite (Hbad eq_refl). split; [discriminate|reflexivity].
Qed.

Lemma summarize_recent (entries : list value) :
  forallb (fun e => negb (nullish e)) entries = true ->
  summarizeConversation entries
  = (important <- mapi summaryLine 0 (sliceLast 3 (userEntries entries)) ;;
     match important with
     | [] => Ok exploringMessage
     | _ :: _ => Ok (trackingMessage important)
     end).
Proof.
  intros H. unfold summarizeConversation. rewrite (filter_untyped _ _ H).
  reflexivity.
Qed.

Lemma recent_objects (entries : list value) :
  forallb (fun e => negb (nullish e)) (sliceLast 3 (userEntries entries)) = true.
Proof.
  apply forallb_forall. intros e He.
  assert (Hr : roleIs "user" e = true).
  { pose proof (forallb_skipn _ _
                  (List.length (userEntries entries) - 3)
                  _ (userEntries_all entries)) as Hall.
    rewrite forallb_forall in Hall. apply Hall, He. }
  rewrite (roleIs_object _ _ Hr). reflexivity.
Qed.

End UntypedSummary.

(** ** Subsequences *)

Section Subsequences.

Lemma Subseq_nil (s : jsstring) : Subseq [] s.
Proof. induction s; constructor; assumption. Qed.

Lemma Subseq_refl (s : jsstring) : Subseq s s.
Proof. induction s; constructor; assumption. Qed.

Lemma Subseq_trans (a b c : jsstring) :
  Subseq a b -> Subseq b c -> Subseq a c.
Proof.
  intros Hab Hbc. revert a Hab.
  induction Hbc as [|x b c _ IH|x b c _ IH]; intros a Hab.
  - exact Hab.
  - constructor. apply IH, Hab.
  - inversion Hab; subst; constructor; apply IH; assumption.
Qed.

Lemma Subseq_ink (s : jsstring) : Subseq (ink s) s.
Proof.
  unfold ink. induction s as [|c t IH]; [constructor|]. simpl.
  destruct (isWhiteSpace c); simpl; constructor; exact IH.
Qed.

Lemma Subseq_trimStart (s : jsstring) : Subseq (trimStart s) s.
Proof.
  induction s as [|c t IH]; [constructor|]. simpl.
  destruct (isWhiteSpace c); [constructor; exact IH|apply Subseq_refl].
Qed.

Lemma Subseq_trimEnd (s : jsstring) : Subseq (trimEnd s) s.
Proof.
  induction s as [|c t IH]; [constructor|].
  rewrite trimEnd_unfold. destruct (forallb isWhiteSpace t).
  - destruct (isWhiteSpace c); [apply Subseq_nil|].
    apply subseq_take, Subseq_nil.
  - apply subseq_take, IH.
Qed.

Lemma Subseq_trim (s : jsstring) : Subseq (trim s) s.
Proof.
  unfold trim. apply Subseq_trans with (b := trimStart s).
  - apply Subseq_trimEnd.
  - apply Subseq_trimStart.
Qed.

Lemma stripPrefix_suffix (w : jsstring) :
  forall s rest, stripPrefix w s = Some rest -> Subseq rest s.
Proof.
  induction w as [|x w IH]; intros s rest H.
  - injection H as <-. apply Subseq_refl.
  - destruct s as [|y s]; [discriminate|]. simpl in H.
    destruct (N.eqb _ _); [|discriminate].
    apply subseq_skip. exact (IH _ _ H).
Qed.

Lemma Stripped_Subseq (keywords : list jsstring) (s out : jsstring) :
  Stripped keywords s out -> Subseq out s.
Proof.
  induction 1 as [|w s rest out _ _ Hw _ IH|c t out _ _ IH].
  - constructor.
  - apply Subseq_trans with (b := rest); [exact IH|].
    exact (stripPrefix_suffix _ _ _ Hw).
  - apply subseq_take, IH.
Qed.

End Subsequences.

(** ** Further properties of the route *)

Section RouteFacts.

Lemma filter_all (A : Type) (p : A -> bool) (xs : list A) :
  forallb p xs = true -> List.filter p xs = xs.
Proof.
  induction xs as [|x xs IH]; [reflexivity|]. simpl.
  intros H. apply andb_prop in H as [-> Hxs]. rewrite (IH Hxs). reflexivity.
Qed.

Lemma buildResponse_time (clock text : jsstring) (history : list value) :
  reachesTime (toLowerCase text) = true ->
  buildResponse clock (VStr text) history = Ok (timePayload clock).
Proof.
  unfold reachesTime. intros H. apply andb_prop in H as [Hnone Htime].
  apply negb_true_iff in Hnone.
  repeat (apply orb_false_elim in Hnone; destruct Hnone as [Hnone ?]).
  unfold buildResponse. cbn [asString bind].
  repeat match goal with
         | E : ?b = false |- context [if ?b then _ else _] => rewrite E
         end.
  rewrite Htime. reflexivity.
Qed.

Lemma buildResponse_clock_free (c1 c2 text : jsstring) (history : list value) :
  reachesTime (toLowerCase text) = false ->
  buildResponse c1 (VStr text) history = buildResponse c2 (VStr text) history.
Proof.
  unfold reachesTime, buildResponse. cbn [asString bind].
  do 8 (match goal with
        | |- context [if ?b then _ else _] => destruct b; [reflexivity|]
        end).
  cbn [orb negb andb]. intros ->. reflexivity.
Qed.

Lemma buildResponse_history_free (clock text : jsstring) (h1 h2 : list value) :
  matchesBeforeSummary (toLowerCase text) = true ->
  buildResponse clock (VStr text) h1 = buildResponse clock (VStr text) h2
  /\ exists answer, buildResponse clock (VStr text) h1 = Ok answer.
Proof.
  unfold matchesBeforeSummary, buildResponse. cbn [asString bind].
  do 10 (match goal with
         | |- context [if ?b then _ else _] =>
           destruct b; [intros _; split; [reflexivity|eauto]|]
         end).
  cbn [orb]. discriminate.
Qed.

Lemma POST_cases (clock : jsstring) (request : result value) :
  POST clock request
  = ({| status := 500; body := failurePayload |}, [js "Chat route error"])
  \/ POST clock request = ({| status := 400; body := malformedPayload |}, [])
  \/ POST clock request = ({| status := 200; body := readyPayload |}, [])
  \/ exists text entries answer,
      buildResponse clock text entries = Ok answer
      /\ POST clock request = ({| status := 200; body := answer |}, []).
Proof.
  unfold POST, serve. destruct request as [payload|e]; [|left; reflexivity].
  destruct (messagesOf payload) as [entries|] eqn:Hm.
  - rewrite (handle_entries _ _ _ Hm).
    destruct (Dyn.find (hasRole "user") (rev entries)) as [found|];
      cbn [bind]; [|left; reflexivity].
    destruct (negb (truthy found)); [right; right; left; reflexivity|].
    destruct (getProp found (js "content")) as [text|];
      cbn [bind]; [|left; reflexivity].
    destruct (buildResponse clock text entries) as [answer|] eqn:Hb;
      cbn [bind]; [|left; reflexivity].
    right; right; right. exists text, entries, answer. auto.
  - rewrite (handle_malformed _ _ Hm). right; left; reflexivity.
Qed.

Lemma default_wellFormed (text : string) :
  wellFormed {| reply := js text; suggestions := fallbackSuggestions |} <->
  js text <> [].
Proof.
  split; [intros H; apply H|]. intros H.
  split; [exact H|]. split; [right; reflexivity|].
  exact (proj2 (proj2 (fallbackPayload_wellFormed []))).
Qed.

Lemma buildPlanResponse_focus (p q : jsstring) :
  planFocus p = planFocus q -> buildPlanResponse p = buildPlanResponse q.
Proof. intros H. unfold buildPlanResponse. rewrite H. reflexivity. Qed.

Lemma buildIdeasResponse_focus (p q : jsstring) :
  ideasFocus p = ideasFocus q -> buildIdeasResponse p = buildIdeasResponse q.
Proof. intros H. unfold buildIdeasResponse. rewrite H. reflexivity. Qed.

(** Where the two headings part: the code unit behind "Here’s a simple
    structure " and the one behind "Here are a few directions t". *)
Lemma plan_heading_focus (p : jsstring) (c : N) (f : jsstring) :
  planFocus p = c :: f -> nth 26 (buildPlanResponse p) 0 = 116.
Proof.
  intros E. unfold buildPlanResponse. cbv zeta. rewrite E.
  vm_compute. reflexivity.
Qed.

Lemma plan_heading_bare : nth 26 (buildPlanResponse []) 0 = 121.
Proof. vm_compute. reflexivity. Qed.

Lemma ideas_heading_focus (p : jsstring) (c : N) (f : jsstring) :
  ideasFocus p = c :: f -> nth 27 (buildIdeasResponse p) 0 = 97.
Proof.
  intros E. unfold buildIdeasResponse. cbv zeta. rewrite E.
  vm_compute. reflexivity.
Qed.

Lemma ideas_heading_bare : nth 27 (buildIdeasResponse []) 0 = 111.
Proof. vm_compute. reflexivity. Qed.

End RouteFacts.

(** X1. [sanitize] writes the words of its input, the maximal runs of
    code units that are not white space, with one space between them.
    No word is empty or holds white space, and together the words are
    the input without its white space. *)
Theorem sanitize_words (s : jsstring) :
  sanitize s = join (js " ") (words s)
  /\ Forall (fun w => w <> [] /\ ink w = w) (words s)
  /\ List.concat (words s) = ink s.
Proof.
  split; [apply sanitize_join_words|]. split; [|apply words_concat].
  apply (Forall_impl _ (P := fun w => w <> [] /\ forallb isWhiteSpace w = false
                                      /\ ink w = w)); [|apply words_clean].
  intros w (Hne & _ & Hink). auto.
Qed.

(** X2. The focus clause is left out of the Plan reply exactly when
    stripping the keywords leaves nothing but white space, and out of
    the Ideas reply likewise: the reply is then the one for an empty
    prompt. *)
Theorem focus_clause_left_out (prompt : jsstring) :
  (buildPlanResponse prompt = buildPlanResponse []
   <-> forallb isWhiteSpace (replaceAll true planStrip [] prompt) = true)
  /\ (buildIdeasResponse prompt = buildIdeasResponse []
      <-> forallb isWhiteSpace (replaceAll true ideasStrip [] prompt) = true).
Proof.
  split.
  - rewrite <- sanitize_nil. fold (planFocus prompt). split.
    + intros H. destruct (planFocus prompt) as [|c f] eqn:E; [reflexivity|].
      pose proof (plan_heading_focus _ _ _ E) as L.
      rewrite H, plan_heading_bare in L. discriminate L.
    + intros H. apply buildPlanResponse_focus. rewrite H.
      vm_compute. reflexivity.
  - rewrite <- trim_nil. fold (ideasFocus prompt). split.
    + intros H. destruct (ideasFocus prompt) as [|c f] eqn:E; [reflexivity|].
      pose proof (ideas_heading_focus _ _ _ E) as L.
      rewrite H, ideas_heading_bare in L. discriminate L.
    + intros H. apply buildIdeasResponse_focus. rewrite H.
      vm_compute. reflexivity.
Qed.

(** X3. The clock shows in the answer of the time branch and nowhere
    else: two calls that differ in the clock alone answer alike exactly
    when the clocks read the same or the time branch is not reached. *)
Theorem clock_only_in_time_branch (c1 c2 text : jsstring)
  (history : list value) :
  buildResponse c1 (VStr text) history = buildResponse c2 (VStr text) history
  <-> c1 = c2 \/ reachesTime (toLowerCase text) = false.
Proof.
  split.
  - intros H. destruct (reachesTime (toLowerCase text)) eqn:Ht; [left|auto].
    rewrite !(buildResponse_time _ _ _ Ht) in H.
    unfold timePayload in H. injection H as H.
    try apply app_inv_head in H. apply app_inv_tail in H. exact H.
  - intros [->|Ht]; [reflexivity|]. apply buildResponse_clock_free, Ht.
Qed.

(** X4. Where one of the ten patterns in front of the summary pattern
    matches, the history is not read: the answer is the same for any
    two histories, and it is returned even when the history holds
    [null] or entries of the wrong shape. *)
Theorem keyword_branches_ignore_history (clock text : jsstring)
  (h1 h2 : list value) :
  matchesBeforeSummary (toLowerCase text) = true ->
  buildResponse clock (VStr text) h1 = buildResponse clock (VStr text) h2
  /\ exists answer, buildResponse clock (VStr text) h1 = Ok answer.
Proof. apply buildResponse_history_free. Qed.

Lemma keyword_branches_ignore_history_witness :
  buildResponse [] (VStr (js "Tell me a JOKE")) [VNull; VNum 4]
  = buildResponse [] (VStr (js "Tell me a JOKE")) []
  /\ exists answer,
      buildResponse [] (VStr (js "Tell me a JOKE")) [VNull; VNum 4] = Ok answer.
Proof.
  apply keyword_branches_ignore_history. vm_compute. reflexivity.
Defined.

(** X5. Every payload the responder returns has a reply that is not
    empty and three suggestions, or the four default ones, and no
    suggestion is empty. *)
Theorem responder_payload_shape (clock : jsstring) (prompt : value)
  (history : list value) (answer : ResponsePayload) :
  buildResponse clock prompt history = Ok answer ->
  reply answer <> []
  /\ (List.length (suggestions answer) = 3%nat
      \/ suggestions answer = fallbackSuggestions)
  /\ Forall (fun s => s <> []) (suggestions answer).
Proof. apply buildResponse_wellFormed. Qed.

Lemma responder_payload_shape_witness :
  reply (planPayload (js "plan my trip")) <> []
  /\ (List.length (suggestions (planPayload (js "plan my trip"))) = 3%nat
      \/ suggestions (planPayload (js "plan my trip")) = fallbackSuggestions)
  /\ Forall (fun s => s <> []) (suggestions (planPayload (js "plan my trip"))).
Proof.
  apply (responder_payload_shape [] (VStr (js "plan my trip")) []).
  vm_compute. reflexivity.
Defined.

(** X6. On entries none of which is [null], the summarizer reads the
    last three entries with role user and nothing else: it returns
    what it returns on those three alone.  It returns a text when each
    of them carries a string under [content], and throws a type error
    otherwise; what older entries carry does not matter. *)
Theorem summarizer_reads_recent (entries : list value) :
  forallb (fun e => negb (nullish e)) entries = true ->
  summarizeConversation entries
  = summarizeConversation (sliceLast 3 (userEntries entries))
  /\ (forallb hasText (sliceLast 3 (userEntries entries)) = true ->
      exists text, summarizeConversation entries = Ok text)
  /\ (forallb hasText (sliceLast 3 (userEntries entries)) = false ->
      summarizeConversation entries = Throw TypeError).
Proof.
  intros H. pose proof (recent_objects entries) as Hrecent.
  rewrite (summarize_recent _ H). split; [|split].
  - rewrite (summarize_recent _ Hrecent). unfold userEntries at 2.
    rewrite filter_all.
    + rewrite (sliceLast_short _ 3 (sliceLast 3 _)); [reflexivity|].
      apply sliceLast_length.
    + apply forallb_skipn, userEntries_all.
  - intros Htext.
    destruct (proj1 (mapi_objects _ Hrecent 0) Htext) as (ls & -> & _).
    cbn [bind]. destruct ls; eauto.
  - intros Htext. rewrite (proj2 (mapi_objects _ Hrecent 0) Htext).
    reflexivity.
Qed.

Lemma summarizer_reads_recent_witness :
  summarizeConversation
    [ VObj [(js "role", VStr (js "user")); (js "content", VNum 7)];
      VObj [(js "role", VStr (js "user")); (js "content", VStr (js "one"))];
      VStr (js "stray");
      VObj [(js "role", VStr (js "user")); (js "content", VStr (js "two"))];
      VObj [(js "role", VStr (js "user")); (js "content", VStr (js "three"))] ]
  = Ok (trackingMessage [js "1. one"; js "2. two"; js "3. three"]).
Proof.
  destruct (summarizer_reads_recent
              [ VObj [(js "role", VStr (js "user")); (js "content", VNum 7)];
                VObj [(js "role", VStr (js "user"));
                      (js "content", VStr (js "one"))];
                VStr (js "stray");
                VObj [(js "role", VStr (js "user"));
                      (js "content", VStr (js "two"))];
                VObj [(js "role", VStr (js "user"));
                      (js "content", VStr (js "three"))] ]
              eq_refl) as [-> _].
  vm_compute. reflexivity.
Defined.

(** X7. A [null] anywhere among the entries makes the summarizer throw
    a type error: it reads the role of every entry. *)
Theorem summarizer_null_entry (entries : list value) :
  existsb nullish entries = true ->
  summarizeConversation entries = Throw TypeError.
Proof.
  intros H. unfold summarizeConversation.
  rewrite (filter_nullish _ _ H). reflexivity.
Qed.

Lemma summarizer_null_entry_witness :
  summarizeConversation
    [ VNull;
      VObj [(js "role", VStr (js "user")); (js "content", VStr (js "a"))];
      VObj [(js "role", VStr (js "user")); (js "content", VStr (js "b"))];
      VObj [(js "role", VStr (js "user")); (js "content", VStr (js "c"))] ]
  = Throw TypeError.
Proof. apply summarizer_null_entry. reflexivity. Defined.

(** X8. Whatever arrives, the endpoint answers with status 200, 400 or
    500; it writes to the error console exactly when it answers 500;
    an answer other than 200 carries the default suggestions; every
    answer has a reply that is not empty and suggestions that are not
    empty.  A body that does not parse is answered with 500 and the
    fixed failure reply. *)
Theorem endpoint_outcomes (clock : jsstring) (request : result value) :
  (status (fst (POST clock request)) = 200%nat
   \/ status (fst (POST clock request)) = 400%nat
   \/ status (fst (POST clock request)) = 500%nat)
  /\ (status (fst (POST clock request)) = 500%nat
      <-> snd (POST clock request) = [js "Chat route error"])
  /\ (status (fst (POST clock request)) <> 500%nat
      <-> snd (POST clock request) = [])
  /\ (status (fst (POST clock request)) <> 200%nat ->
      suggestions (body (fst (POST clock request))) = fallbackSuggestions)
  /\ wellFormed (body (fst (POST clock request)))
  /\ (forall e,
         request = Throw e ->
         POST clock request
         = ({| status := 500; body := failurePayload |},
            [js "Chat route error"])).
Proof.
  assert (Hfixed : forall text : string,
             js text <> [] ->
             wellFormed {| reply := js text; suggestions := fallbackSuggestions |})
    by (intros text; apply default_wellFormed).
  conj; try (intros e ->; reflexivity);
    destruct (POST_cases clock request)
      as [H|[H|[H|(text & entries & answer & Hb & H)]]];
    rewrite H; cbn [fst snd status body];
    try solve [ auto
              | split; [reflexivity || discriminate|reflexivity || discriminate]
              | split; intros; [reflexivity || congruence|discriminate]
              | intros; reflexivity || congruence
              | apply Hfixed; vm_compute; discriminate
              | exact (buildResponse_wellFormed _ _ _ _ Hb) ].
Qed.

(** X9. An input that matches no keyword pattern makes the responder
    read the history from its end up to the last assistant entry, to
    decide between the follow-up and the fallback.  A [null] met on
    the way makes it throw, also for an input that is headed for the
    fallback; entries in front of the last assistant entry are not
    read. *)
Theorem follow_up_scan (clock text : jsstring) (entries : list value) :
  matchesKeyword (toLowerCase text) = false ->
  (forallb (fun e => negb (nullish e) && negb (roleIs "assistant" e)) entries
   = true ->
   buildResponse clock (VStr text) entries = Ok (fallbackPayload text))
  /\ (forall before e after,
         entries = before ++ e :: after ->
         roleIs "assistant" e = true ->
         forallb (fun x => negb (nullish x) && negb (roleIs "assistant" x)) after
         = true ->
         buildResponse clock (VStr text) entries
         = Ok (if includes (toLowerCase text) (js "expand")
               then expandPayload
               else fallbackPayload text))
  /\ (forall before e after,
         entries = before ++ e :: after ->
         nullish e = true ->
         forallb (fun x => negb (roleIs "assistant" x)) after = true ->
         buildResponse clock (VStr text) entries = Throw TypeError).
Proof.
  intros Hk. rewrite (buildResponse_past_keywords clock _ entries Hk). conj.
  - intros Hclean. rewrite find_misses; [reflexivity|].
    rewrite forallb_rev. exact Hclean.
  - intros before e after -> He Hafter.
    rewrite rev_middle, find_passes, (find_hits _ _ _ He);
      [|rewrite forallb_rev; exact Hafter].
    cbn [bind]. destruct e; try discriminate He. cbn [truthy andb].
    destruct (includes (toLowerCase text) (js "expand")); reflexivity.
  - intros before e after -> He Hafter.
    rewrite rev_middle, find_throws; [reflexivity| |exact He].
    rewrite forallb_rev. exact Hafter.
Qed.

Lemma follow_up_scan_witness :
  buildResponse [] (VStr (js "xyzzy quux"))
    [ VNull;
      VObj [(js "role", VStr (js "user")); (js "content", VStr (js "xyzzy quux"))] ]
  = Throw TypeError
  /\ buildResponse [] (VStr (js "xyzzy quux"))
       [ VNull;
         VObj [(js "role", VStr (js "assistant")); (js "content", VStr (js "ok"))];
         VObj [(js "role", VStr (js "user"));
               (js "content", VStr (js "xyzzy quux"))] ]
     = Ok (fallbackPayload (js "xyzzy quux")).
Proof.
  split.
  - exact (proj2 (proj2 (follow_up_scan [] (js "xyzzy quux") _ eq_refl))
             [] VNull
             [ VObj [(js "role", VStr (js "user"));
                     (js "content", VStr (js "xyzzy quux"))] ]
             eq_refl eq_refl eq_refl).
  - exact (proj1 (proj2 (follow_up_scan [] (js "xyzzy quux") _ eq_refl))
             [VNull]
             (VObj [(js "role", VStr (js "assistant"));
                    (js "content", VStr (js "ok"))])
             [ VObj [(js "role", VStr (js "user"));
                     (js "content", VStr (js "xyzzy quux"))] ]
             eq_refl eq_refl eq_refl).
Defined.

(** X10. The focus is made of the prompt's own text: the Ideas focus is
    the prompt with some code units left out, and so is the Plan focus
    once its spaces are set aside. *)
Theorem focus_from_prompt (prompt : jsstring) :
  Subseq (ideasFocus prompt) prompt
  /\ Subseq (ink (planFocus prompt)) prompt.
Proof.
  split.
  - unfold ideasFocus.
    apply Subseq_trans with (b := replaceAll true ideasStrip [] prompt).
    + apply Subseq_trim.
    + apply (Stripped_Subseq ideasWords), ideasStrip_spec. reflexivity.
  - unfold planFocus. rewrite sanitize_ink.
    apply Subseq_trans with (b := replaceAll true planStrip [] prompt).
    + apply Subseq_ink.
    + apply (Stripped_Subseq planWords), planStrip_spec. reflexivity.
Qed.

(** ** The page and the route together *)

Section PageFacts.

Lemma wire_typed (history : list Page.Message) :
  map Page.wire history = map ofMessage (map toChat history).
Proof. rewrite map_map. reflexivity. Qed.

Lemma messagesOf_requestBody (history : list Page.Message) :
  messagesOf (Page.requestBody history) = Some (map Page.wire history).
Proof. reflexivity. Qed.

(** The route on a request of the page whose last turn is a user
    turn. *)
Lemma POST_request (clock : jsstring) (earlier : list Page.Message)
  (turn : Page.Message) :
  Page.role turn = user ->
  exists answer,
    buildResponse clock (VStr (Page.content turn))
      (map Page.wire (earlier ++ [turn])) = Ok answer
    /\ POST clock (Ok (Page.requestBody (earlier ++ [turn])))
       = ({| status := 200; body := answer |}, []).
Proof.
  intros Hrole. rewrite wire_typed.
  destruct (buildResponse_returns clock (Page.content turn)
              (map toChat (earlier ++ [turn]))) as [answer Hanswer].
  exists answer. split; [exact Hanswer|].
  assert (Hfind : List.find isUser (rev (map toChat (earlier ++ [turn])))
                  = Some (toChat turn)).
  { rewrite map_app. cbn [map]. apply lastUser_found; [|reflexivity].
    unfold isUser. cbn [toChat role]. rewrite Hrole. reflexivity. }
  unfold POST, serve.
  rewrite (handle_entries _ _ _ (messagesOf_requestBody _)), wire_typed.
  rewrite lastUser_typed, Hfind.
  cbn [bind ofFound]. cbn [ofMessage truthy negb].
  rewrite content_ofMessage. cbn [bind toChat content].
  rewrite Hanswer. reflexivity.
Qed.

Lemma wellFormed_offered (answer : ResponsePayload) :
  wellFormed answer ->
  match suggestions answer with
  | first :: more => first :: more
  | [] => Page.fallbackPrompts
  end = suggestions answer.
Proof.
  intros (_ & [Hlen|Hdefault] & _).
  - destruct (suggestions answer); [discriminate Hlen|reflexivity].
  - rewrite Hdefault. reflexivity.
Qed.

Lemma alternates_snoc (ms : list Page.Message) (m : Page.Message) :
  forall first,
    alternates first (ms ++ [m])
    = alternates first ms
      && sameRole (Page.role m)
           (if Nat.even (List.length ms) then first else otherRole first).
Proof.
  induction ms as [|m0 ms IH]; intros first.
  - simpl. rewrite andb_true_r. reflexivity.
  - cbn [app alternates List.length]. rewrite IH, Nat.even_succ, <- Nat.negb_even.
    rewrite andb_assoc. f_equal.
    destruct (Nat.even (List.length ms)), first; reflexivity.
Qed.

Lemma consistent_start (loadedAt : Z) : consistent (Page.start loadedAt).
Proof. repeat split. Qed.

Lemma consistent_step (w w' : Page.World) (e : Page.Event) :
  consistent w -> Page.step w e = Some w' -> consistent w'.
Proof.
  intros (Halt & Hload & Hflight) Hstep.
  destruct w as [[msgs input loading suggestions] flight].
  cbn [Page.ui Page.messages Page.isLoading Page.inFlight] in *.
  destruct e as [text|prompt|uuid now|fetched uuid now]; cbn [Page.step] in Hstep.
  - injection Hstep as <-. repeat split; assumption.
  - destruct (existsb _ _); [|discriminate].
    injection Hstep as <-. repeat split; assumption.
  - unfold Page.sendMessage in Hstep.
    cbn [Page.ui Page.input Page.isLoading Page.messages Page.suggestions]
      in Hstep.
    destruct (match trim input with [] => true | _ :: _ => false end || loading)
      eqn:Hguard.
    + injection Hstep as <-. repeat split; assumption.
    + injection Hstep as <-.
      apply orb_false_elim in Hguard as [_ ->].
      unfold consistent.
      cbn [Page.ui Page.messages Page.isLoading Page.inFlight].
      rewrite alternates_snoc, Halt, <- Hload, length_app, Hflight.
      cbn [List.length]. rewrite Nat.add_1_r, Nat.even_succ, <- Nat.negb_even.
      rewrite <- Hload. repeat split.
  - destruct flight as [|body rest]; [discriminate|].
    injection Hstep as <-.
    destruct loading; [|discriminate Hflight].
    injection Hflight as _ ->.
    assert (Hsettled :
              exists m, Page.role m = assistant
                        /\ Page.messages
                             (Page.settle
                                {| Page.messages := msgs; Page.input := input;
                                   Page.isLoading := true;
                                   Page.suggestions := suggestions |}
                                fetched uuid now)
                           = msgs ++ [m]
                        /\ Page.isLoading
                             (Page.settle
                                {| Page.messages := msgs; Page.input := input;
                                   Page.isLoading := true;
                                   Page.suggestions := suggestions |}
                                fetched uuid now)
                           = false).
    { destruct fetched as [|[|] [data|err]]; cbn [Page.settle Page.messages];
        eexists; (split; [|split; reflexivity]); reflexivity. }
    destruct Hsettled as (m & Hm & Hmsgs & Hflag).
    unfold consistent. cbn [Page.ui Page.inFlight].
    rewrite Hmsgs, Hflag, alternates_snoc, Halt, <- Hload, Hm, length_app.
    cbn [List.length]. rewrite Nat.add_1_r, Nat.even_succ, <- Nat.negb_even.
    rewrite <- Hload. repeat split.
Qed.

End PageFacts.

(** X11. The send button is disabled exactly when a submit would do
    nothing: [sendMessage] on the current input returns at its guard,
    and the page and the requests under way stay as they are. *)
Theorem send_button_matches_guard (w : Page.World) (uuid : jsstring)
  (now : Z) :
  (Page.isSendDisabled (Page.ui w) = true
   <-> Page.sendMessage (Page.ui w) (Page.input (Page.ui w)) uuid now = None)
  /\ (Page.isSendDisabled (Page.ui w) = true
      <-> Page.step w (Page.Submitted uuid now) = Some w).
Proof.
  unfold Page.isSendDisabled, Page.step, Page.sendMessage.
  destruct (trim (Page.input (Page.ui w))) as [|c rest];
    cbn [List.length Nat.eqb orb]; [split; split; reflexivity|].
  destruct (Page.isLoading (Page.ui w)); [split; split; reflexivity|].
  split; split; try discriminate.
  intros H. exfalso. injection H as H.
  apply (f_equal (fun x => List.length (Page.inFlight x))) in H.
  cbn [Page.inFlight] in H. rewrite length_app in H.
  cbn [List.length] in H. lia.
Qed.

(** X12. A submit that passes the guard sends the whole transcript
    with the trimmed input as its last, user turn.  The route answers
    that request with status 200 and what the responder returns for
    the trimmed input, never with 400 or the "ready when you are"
    reply; when that answer arrives the page appends the reply as an
    assistant turn, lowers the loading flag and shows the route's
    suggestions, not its own default prompts. *)
Theorem exchange_end_to_end (clock : jsstring) (st : Page.State)
  (uuid uuid' : jsstring) (now now' : Z) :
  Page.isSendDisabled st = false ->
  let turn :=
    {| Page.id := uuid; Page.role := user;
       Page.content := trim (Page.input st); Page.createdAt := now |} in
  let sent :=
    {| Page.messages := Page.messages st ++ [turn];
       Page.input := [];
       Page.isLoading := true;
       Page.suggestions := Page.suggestions st |} in
  Page.sendMessage st (Page.input st) uuid now
  = Some (sent, Page.requestBody (Page.messages st ++ [turn]))
  /\ trim (Page.input st) <> []
  /\ exists answer,
      buildResponse clock (VStr (trim (Page.input st)))
        (map Page.wire (Page.messages st ++ [turn])) = Ok answer
      /\ POST clock (Ok (Page.requestBody (Page.messages st ++ [turn])))
         = ({| status := 200; body := answer |}, [])
      /\ Page.settle sent
           (Page.deliver {| status := 200; body := answer |}) uuid' now'
         = {| Page.messages :=
                (Page.messages st ++ [turn])
                  ++ [ {| Page.id := uuid'; Page.role := assistant;
                          Page.content := reply answer;
                          Page.createdAt := now' |} ];
              Page.input := [];
              Page.isLoading := false;
              Page.suggestions := suggestions answer |}.
Proof.
  intros Hguard. cbv zeta. unfold Page.isSendDisabled in Hguard.
  apply orb_false_elim in Hguard as [Hblank Hidle].
  assert (Hne : trim (Page.input st) <> []).
  { intros H. rewrite H in Hblank. discriminate Hblank. }
  split; [|split; [exact Hne|]].
  - unfold Page.sendMessage. rewrite Hidle.
    destruct (trim (Page.input st)); [contradiction|]. reflexivity.
  - destruct (POST_request clock (Page.messages st)
                {| Page.id := uuid; Page.role := user;
                   Page.content := trim (Page.input st);
                   Page.createdAt := now |} eq_refl)
      as (answer & Hanswer & Hpost).
    exists answer. split; [exact Hanswer|]. split; [exact Hpost|].
    unfold Page.deliver, Page.settle. cbn [status body Nat.leb andb].
    cbn [Page.reply Page.offered Page.messages Page.input].
    rewrite (wellFormed_offered _ (buildResponse_wellFormed _ _ _ _ Hanswer)).
    reflexivity.
Qed.

Lemma exchange_end_to_end_witness :
  POST []
    (Ok (Page.requestBody
           (Page.messages
              (Page.setInput (Page.initialState 0) (js "  tell me a joke "))
            ++ [ {| Page.id := js "u1"; Page.role := user;
                    Page.content :=
                      trim (Page.input
                              (Page.setInput (Page.initialState 0)
                                 (js "  tell me a joke ")));
                    Page.createdAt := 1 |} ])))
  = ({| status := 200; body := jokePayload |}, []).
Proof.
  destruct (exchange_end_to_end []
              (Page.setInput (Page.initialState 0) (js "  tell me a joke "))
              (js "u1") (js "u2") 1 2 eq_refl)
    as (_ & _ & answer & Hanswer & -> & _).
  vm_compute in Hanswer. injection Hanswer as <-. reflexivity.
Defined.

(** X13. The route's replies for a malformed request and for a failure
    never reach the transcript: whenever the route answers with a
    status other than 200, the page appends its own hiccup message,
    keeps the suggestions it shows, lowers the loading flag and writes
    to the error console.  A request that fails on the way, or a body
    that does not parse, ends the same way. *)
Theorem route_errors_show_hiccup (clock : jsstring) (request : result value)
  (st : Page.State) (fetched : Page.Fetched) (uuid : jsstring) (now : Z) :
  (fetched = Page.deliver (fst (POST clock request))
   /\ status (fst (POST clock request)) <> 200%nat)
  \/ fetched = Page.Rejected
  \/ (exists ok e, fetched = Page.Responded ok (Throw e)) ->
  Page.settle st fetched uuid now
  = {| Page.messages := Page.messages st ++ [Page.hiccupMessage uuid now];
       Page.input := Page.input st;
       Page.isLoading := false;
       Page.suggestions := Page.suggestions st |}
  /\ Page.settleLogs fetched = true.
Proof.
  intros [[-> Hstatus]|[->|(ok & e & ->)]].
  - destruct (POST_cases clock request)
      as [H|[H|[H|(text & entries & answer & _ & H)]]];
      rewrite H in *; cbn [fst status] in Hstatus;
      try contradiction; split; reflexivity.
  - split; reflexivity.
  - destruct ok; split; reflexivity.
Qed.

Lemma route_errors_show_hiccup_witness :
  Page.settle (Page.initialState 0)
    (Page.deliver (fst (POST [] (Ok (VObj [(js "messages", VArr [VNull])])))))
    (js "u2") 2
  = {| Page.messages :=
         Page.messages (Page.initialState 0)
           ++ [Page.hiccupMessage (js "u2") 2];
       Page.input := Page.input (Page.initialState 0);
       Page.isLoading := false;
       Page.suggestions := Page.suggestions (Page.initialState 0) |}
  /\ Page.settleLogs
       (Page.deliver (fst (POST [] (Ok (VObj [(js "messages", VArr [VNull])])))))
     = true.
Proof.
  apply (route_errors_show_hiccup [] (Ok (VObj [(js "messages", VArr [VNull])]))).
  left. split; [reflexivity|]. vm_compute. discriminate.
Defined.

(** X14. Whatever the user does and however the requests settle, the
    page stays consistent: the transcript alternates assistant and
    user turns from the greeting on; while the loading flag is up it
    ends on a user turn and exactly one request is under way, carrying
    the whole transcript; otherwise it ends on an assistant turn and
    no request is under way. *)
Theorem page_stays_consistent (loadedAt : Z) (events : list Page.Event)
  (w : Page.World) :
  Page.run (Page.start loadedAt) events = Some w -> consistent w.
Proof.
  generalize (consistent_start loadedAt). generalize (Page.start loadedAt).
  induction events as [|e events IH]; intros w0 H0 Hrun.
  - injection Hrun as <-. exact H0.
  - cbn [Page.run] in Hrun.
    destruct (Page.step w0 e) as [w1|] eqn:Hstep; [|discriminate].
    exact (IH w1 (consistent_step _ _ _ H0 Hstep) Hrun).
Qed.

Lemma page_stays_consistent_witness :
  consistent
    {| Page.ui :=
         {| Page.messages :=
              [ Page.assistantGreeting 0;
                {| Page.id := js "u1"; Page.role := user;
                   Page.content := js "hi"; Page.createdAt := 1 |} ];
            Page.input := js "more";
            Page.isLoading := true;
            Page.suggestions := Page.fallbackPrompts |};
       Page.inFlight :=
         [ Page.requestBody
             [ Page.assistantGreeting 0;
               {| Page.id := js "u1"; Page.role := user;
                  Page.content := js "hi"; Page.createdAt := 1 |} ] ] |}.
Proof.
  apply (page_stays_consistent 0
           [ Page.Typed (js " hi "); Page.Submitted (js "u1") 1;
             Page.Submitted (js "u2") 2; Page.Typed (js "more") ]).
  vm_compute. reflexivity.
Defined.
